(** * pydapphubfuse: the dApp Hub catalog as a read-only FUSE tree

    A shallow embedding of [src/pydapphubfuse.py] (class [PydAppHubFuse]):
    the path classifier, the [dapp.conf] generator and its cache, the table
    of open files, and the filesystem operations built on them.

    Conventions of the embedding.
    - A Python [str] is a [string]; a character above code 127 stands for a
      non-ASCII code point.
    - A Python [int] is a [Z].
    - The dicts [self.cache] and [self.filecache] are [gmap]s; [self.dapps],
      whose iteration order [readdir] exposes, is a list of pairs kept in
      insertion order with one entry per key.
    - A method that raises leaves the attributes it has already written as
      they are, so a stateful method maps a state to an outcome and a state. *)

From Stdlib Require Import ZArith Ascii String DecimalString.
From stdpp Require Import gmap strings list fin_maps.

Local Open Scope Z_scope.

(** ** Strings *)

Definition newline : ascii := Ascii.ascii_of_nat 10.

Fixpoint forall_chars (p : ascii → bool) (s : string) : bool :=
  match s with
  | EmptyString => true
  | String c s' => p c && forall_chars p s'
  end.

(** ** The fragment of Python's [re] that [classify] uses

    [re.match] is a backtracking matcher: alternatives are tried in a fixed
    order (a greedy repetition tries the longest run first) and the first
    complete match decides the groups.  Repetitions are over one-character
    items, which is all the pattern of [classify] needs. The matcher is
    written in continuation-passing style: [k] matches what follows. *)

Inductive regex :=
  | Bol                          (* ^ *)
  | Eol                          (* $ *)
  | Chr (p : ascii → bool)       (* one character: a literal, [.], a set *)
  | Cat (r1 r2 : regex)
  | Group (n : nat) (r : regex)  (* ( r ), numbered *)
  | Opt (r : regex)              (* r? *)
  | Star (p : ascii → bool)      (* p* *)
  | Plus (p : ascii → bool).     (* p+ *)

(** The groups that took part in the match, latest first. *)
Definition groups := list (nat * string).

Definition group (n : nat) (g : groups) : option string :=
  snd <$> List.find (λ e, Nat.eqb (fst e) n) g.

Definition kont := nat → string → groups → option groups.

(** [p*] at position [pos] of the subject, [s] being what is left of it. *)
Fixpoint star (p : ascii → bool) (pos : nat) (s : string) (g : groups)
    (k : kont) : option groups :=
  match s with
  | String c s' =>
      if p c then
        match star p (S pos) s' g k with
        | Some r => Some r
        | None => k pos s g
        end
      else k pos s g
  | EmptyString => k pos s g
  end.

Fixpoint rmatch (r : regex) (pos : nat) (s : string) (g : groups)
    (k : kont) : option groups :=
  match r with
  | Bol => if Nat.eqb pos 0 then k pos s g else None
  | Eol =>
      (* the end of the subject, or just before a newline that ends it *)
      match s with
      | EmptyString => k pos s g
      | String c EmptyString => if Ascii.eqb c newline then k pos s g else None
      | _ => None
      end
  | Chr p =>
      match s with
      | String c s' => if p c then k (S pos) s' g else None
      | EmptyString => None
      end
  | Cat r1 r2 => rmatch r1 pos s g (λ pos' s' g', rmatch r2 pos' s' g' k)
  | Group n r =>
      rmatch r pos s g
        (λ pos' s' g',
           k pos' s' ((n, String.substring 0 (String.length s - String.length s') s) :: g'))
  | Opt r =>
      match rmatch r pos s g k with
      | Some res => Some res
      | None => k pos s g
      end
  | Star p => star p pos s g k
  | Plus p =>
      match s with
      | String c s' => if p c then star p (S pos) s' g k else None
      | EmptyString => None
      end
  end.

(** [re.match(r, s)]: the match is anchored at the start of [s] and need not
    reach its end. *)
Definition re_match (r : regex) (s : string) : option groups :=
  rmatch r 0 s [] (λ _ _ g, Some g).

Definition lit (c : ascii) : regex := Chr (Ascii.eqb c).

(** [.] without DOTALL: any character but a newline. *)
Definition dot_char (c : ascii) : bool := negb (Ascii.eqb c newline).
Definition dot : regex := Chr dot_char.

Fixpoint lits (s : string) (rest : regex) : regex :=
  match s with
  | EmptyString => rest
  | String c s' => Cat (lit c) (lits s' rest)
  end.

Definition in_range (lo hi c : ascii) : bool :=
  (nat_of_ascii lo <=? nat_of_ascii c)%nat && (nat_of_ascii c <=? nat_of_ascii hi)%nat.

(** The set [[A-Za-z-_]]: two ranges, then the literals [-] and [_]. *)
Definition name_char (c : ascii) : bool :=
  in_range "A" "Z" c || in_range "a" "z" c || Ascii.eqb c "-" || Ascii.eqb c "_".

(** The pattern of [classify], piece by piece.  Its two dots are not
    escaped, so each stands for any character but a newline. *)
Definition suffix_pattern : regex :=
  Cat dot                                     (* . *)
    (lits "service"                           (* service *)
       (Cat dot                               (* . *)
          (Cat (lit "d")                      (* d *)
             (* an optional group 2: a slash, then any run of [.] *)
             (Cat (Opt (Group 2 (Cat (lit "/") (Star dot_char))))
                Eol)))).                      (* $ *)

Definition dapp_pattern : regex :=
  Cat Bol                                     (* ^ *)
    (lits "/dapp@"                            (* /dapp@ *)
       (Cat (Group 1 (Plus name_char))        (* ([A-Za-z-_]+) *)
          suffix_pattern)).

(** ** The catalog *)

Record Port := { port : Z; protocol : string; type : string }.

(** One record of the catalog file.  The fields that [genconfig] reads are
    taken to be present, [port] an integer and the rest strings. *)
Record Dapp := {
  name : string;
  description : string;
  image : string;
  ports : list Port
}.

(** A dict with string keys, in insertion order. *)
Definition dict (V : Type) := list (string * V).

Fixpoint dict_get {V} (k : string) (d : dict V) : option V :=
  match d with
  | [] => None
  | (k', v) :: d' => if String.eqb k k' then Some v else dict_get k d'
  end.

Definition dict_mem {V} (k : string) (d : dict V) : bool :=
  match dict_get k d with Some _ => true | None => false end.

(** [d[k] = v]: an existing key keeps its place and takes the new value, a
    new key goes last. *)
Fixpoint dict_set {V} (k : string) (v : V) (d : dict V) : dict V :=
  match d with
  | [] => [(k, v)]
  | (k', v') :: d' =>
      if String.eqb k k' then (k, v) :: d' else (k', v') :: dict_set k v d'
  end.

Definition dict_keys {V} (d : dict V) : list string := fst <$> d.

(** [{ v['name']:v for v in jsonobj }] *)
Definition load_dapps (jsonobj : list Dapp) : dict Dapp :=
  fold_left (λ d v, dict_set (name v) v d) jsonobj [].

(** ** Formatting *)

Definition nl : string := String newline "".
Definition dquote : string := String (Ascii.ascii_of_nat 34) "".

(** [sep.join(items)] *)
Fixpoint join (sep : string) (items : list string) : string :=
  match items with
  | [] => ""
  | [x] => x
  | x :: rest => x +:+ sep +:+ join sep rest
  end.

(** [s.replace(old, new)] for one-character [old] and [new]. *)
Fixpoint replace (old new : ascii) (s : string) : string :=
  match s with
  | EmptyString => EmptyString
  | String c s' => String (if Ascii.eqb c old then new else c) (replace old new s')
  end.

(** [str(n)] of an int, as [format] prints it. *)
Definition str_of_int (n : Z) : string := NilEmpty.string_of_int (Z.to_int n).

(** ['Wants=forward-port@{port}-{protocol}.service'], formatted with the
    fields of the port entry. *)
Definition wants_line (p : Port) : string :=
  "Wants=forward-port@" +:+ str_of_int (port p) +:+ "-" +:+ protocol p +:+ ".service".

(** ['-p{port}/{protocol}'], formatted with the fields of the port entry. *)
Definition publish_token (p : Port) : string :=
  "-p" +:+ str_of_int (port p) +:+ "/" +:+ protocol p.

(** [port['type']=='public'] *)
Definition is_public (p : Port) : bool := String.eqb (type p) "public".

(** The text that [genconfig] builds from the record [d = self.dapps[dapp]],
    one [conf += ...] after the other. *)
Definition config_text (d : Dapp) : string :=
  let conf :=
    "#" +:+ nl +:+
    "# Automatically generated by FUSE from dApp Hub JSON" +:+ nl +:+
    "# Do not [attempt] to edit" +:+ nl +:+
    "#" +:+ nl +:+
    "[Unit]" +:+ nl +:+
    "Description=" +:+ description d +:+ nl in
  let conf := conf +:+ join nl (wants_line <$> filter (λ p, is_public p = true) (ports d)) in
  let conf := conf +:+ nl +:+ nl in
  let conf := conf +:+ "[Service]" +:+ nl in
  let conf := conf +:+ "Environment=DAPP_DOCKER_PORTS=" +:+ dquote
                   +:+ join " " (publish_token <$> ports d) +:+ dquote in
  let conf := conf +:+ nl +:+ "# Making sure we overwrite previous values" +:+ nl in
  let conf := conf +:+ "Environment=DAPP_DOCKER_IMAGE=" +:+ image d +:+ nl in
  let conf := conf +:+ "Environment=DAPP_DOCKER_IMAGE_FILE=/var/lib/docker/preinstall/"
                   +:+ replace ":" "_" (replace "/" "_" (image d)) +:+ ".tar" +:+ nl in
  let conf := conf +:+ nl in
  conf.

(** [s[lo:hi]] for ints [lo] and [hi]: a negative index counts from the
    end, and both are clamped to the string. *)
Definition slice_index (len i : Z) : Z :=
  if i <? 0 then Z.max 0 (i + len) else Z.min i len.

Definition slice (s : string) (lo hi : Z) : string :=
  let len := Z.of_nat (String.length s) in
  let lo' := slice_index len lo in
  let hi' := slice_index len hi in
  String.substring (Z.to_nat lo') (Z.to_nat (hi' - lo')) s.

Definition is_ascii (c : ascii) : bool := (nat_of_ascii c <? 128)%nat.

(** ** Exceptions and state *)

Inductive errno := ENOENT | EACCES | EBADF.

Inductive exn :=
  | FuseOSError (e : errno)
  | KeyError
  | UnicodeEncodeError.

Inductive result (A : Type) :=
  | Ok (a : A)
  | Raise (e : exn).
Arguments Ok {A} a.
Arguments Raise {A} e.

#[global] Instance result_ret : MRet result := λ A a, Ok a.
#[global] Instance result_bind : MBind result := λ A B f m,
  match m with Ok a => f a | Raise e => Raise e end.

(** [s.encode('ascii')] *)
Definition encode_ascii (s : string) : result string :=
  if forall_chars is_ascii s then Ok s else Raise UnicodeEncodeError.

(** ** classify *)

(** What [classify] returns: [None] for an invalid path, [True] for a valid
    directory, the dapp name for a valid [dapp.conf]. *)
Inductive classification :=
  | Invalid
  | Directory
  | EntityFile (dapp : string).

(** Python's truth value of the three. *)
Definition truthy (obj : classification) : bool :=
  match obj with
  | Invalid => false
  | Directory => true
  | EntityFile dapp => negb (String.eqb dapp "")
  end.

(** [type(obj) is str] *)
Definition is_str (obj : classification) : bool :=
  match obj with EntityFile _ => true | _ => false end.

(** ** The attributes of an instance *)

(** The mutable attributes of the instance.  [generated] is not one of them:
    it logs the argument of every call of [genconfig], latest first, so that
    how often the generator ran can be stated. *)
Record state := {
  cache : gmap string string;      (* self.cache *)
  filecache : gmap Z string;       (* self.filecache *)
  lastfd : Z;                      (* self.lastfd *)
  generated : list classification
}.

(** The attributes as [__init__] leaves them. *)
Definition init : state :=
  {| cache := ∅; filecache := ∅; lastfd := -1; generated := [] |}.

Definition M (A : Type) : Type := state → result A * state.

#[global] Instance M_ret : MRet M := λ A a s, (Ok a, s).
#[global] Instance M_bind : MBind M := λ A B f m s,
  match m s with
  | (Ok a, s') => f a s'
  | (Raise e, s') => (Raise e, s')
  end.

Definition lift {A} (r : result A) : M A := λ s, (r, s).

(** The calls that reach an instance: the operations of the filesystem, and
    [getconfig] itself. *)
Inductive call :=
  | CallAccess (path : string) (mode : Z)
  | CallGetattr (path : string)
  | CallReaddir (path : string)
  | CallOpen (path : string) (flags : Z)
  | CallRelease (path : string) (fh : Z)
  | CallRead (path : string) (length offset fh : Z)
  | CallFsync
  | CallGetconfig (dapp : classification).

#[global] Instance classification_eq_dec : EqDecision classification.
Proof. solve_decision. Defined.


Section Filesystem.

(** [self.dapps]: assigned in [__init__] and never written again. *)
Variable dapps : dict Dapp.

Definition classify (path : string) : classification :=
  if String.eqb path "/" then Directory
  else
    match re_match dapp_pattern path with
    | None => Invalid
    | Some m =>
        match group 1 m with
        | None => Invalid (* unreachable: group 1 is part of every match *)
        | Some dapp =>
            match group 2 m with
            | None => Directory
            | Some fname =>
                if String.eqb fname "" then Directory
                else if negb (dict_mem dapp dapps) then Invalid
                else if String.eqb fname "/dapp.conf" then EntityFile dapp
                else Invalid
            end
        end
    end.

(** [getobj]: [classify], raising ENOENT on a falsy result. *)
Definition getobj (path : string) : result classification :=
  let obj := classify path in
  if negb (truthy obj) then Raise (FuseOSError ENOENT) else Ok obj.

(** [genconfig(dapp)]: [self.dapps[dapp]] raises KeyError for anything that
    is no key of the catalog, [True] included. *)
Definition genconfig (dapp : classification) : M string := λ s,
  let s := {| cache := cache s; filecache := filecache s; lastfd := lastfd s;
              generated := dapp :: generated s |} in
  match dapp with
  | EntityFile n =>
      match dict_get n dapps with
      | Some d => (Ok (config_text d), s)
      | None => (Raise KeyError, s)
      end
  | _ => (Raise KeyError, s)
  end.

(** The keys of [self.cache] are strings, so [True] is never among them. *)
Definition cache_get (dapp : classification) (s : state) : option string :=
  match dapp with
  | EntityFile n => cache s !! n
  | _ => None
  end.

(** [dapp in self.cache] *)
Definition cache_has (dapp : classification) : M bool := λ s,
  (Ok (bool_decide (is_Some (cache_get dapp s))), s).

(** [self.cache[dapp]] *)
Definition cache_read (dapp : classification) : M string := λ s,
  match cache_get dapp s with
  | Some conf => (Ok conf, s)
  | None => (Raise KeyError, s)
  end.

(** [self.cache[dapp] = conf].  [genconfig] returns only for a dapp name, so
    no other key is ever written. *)
Definition cache_set (dapp : classification) (conf : string) : M unit := λ s,
  match dapp with
  | EntityFile n =>
      (Ok (), {| cache := <[n := conf]> (cache s); filecache := filecache s;
                 lastfd := lastfd s; generated := generated s |})
  | _ => (Ok (), s)
  end.

Definition getconfig (dapp : classification) : M string :=
  hit ← cache_has dapp;
  _ ← (if negb hit then conf ← genconfig dapp; cache_set dapp conf
       else mret ());
  cache_read dapp.

Definition W_OK : Z := 2.
Definition X_OK : Z := 1.

Definition access (path : string) (mode : Z) : result unit :=
  obj ← getobj path;
  let isdir := negb (is_str obj) in
  if negb (Z.land mode W_OK =? 0) || (negb isdir && negb (Z.land mode X_OK =? 0))
  then Raise (FuseOSError EACCES)
  else Ok ().

Record stat := {
  st_atime : Z; st_ctime : Z; st_gid : Z; st_mode : Z;
  st_mtime : Z; st_nlink : Z; st_size : Z; st_uid : Z
}.

Definition S_IFDIR : Z := 16384. (* 0o040000 *)
Definition S_IFREG : Z := 32768. (* 0o100000 *)

Definition getattr (path : string) : M stat :=
  obj ← lift (getobj path);
  let isdir := negb (is_str obj) in
  let mode := if isdir then Z.lor S_IFDIR 493 (* 0o755 *) else Z.lor S_IFREG 420 (* 0o644 *) in
  size ← (if isdir then mret 0
          else conf ← getconfig obj; mret (Z.of_nat (String.length conf)));
  mret {| st_atime := 0; st_ctime := 0; st_gid := 0; st_mode := mode;
          st_mtime := 0; st_nlink := 0; st_size := size; st_uid := 0 |}.

(** [type(obj) is dict]: [classify] returns [None], [True] or a [str]. *)
Definition is_dict (obj : classification) : bool :=
  match obj with
  | Invalid | Directory | EntityFile _ => false
  end.

(** [readdir], run to the end of what it yields. *)
Definition readdir (path : string) : result (list string) :=
  obj ← getobj path;
  if is_dict obj then Raise (FuseOSError EBADF)
  else
    let dirents := ["."; ".."] in
    if String.eqb path "/"
    then Ok (dirents ++ ((λ dapp, "dapp@" +:+ dapp +:+ ".service.d") <$> dict_keys dapps))
    else Ok (dirents ++ ["dapp.conf"]).

(** [self.lastfd += 1] *)
Definition bump_lastfd : M unit := λ s,
  (Ok (), {| cache := cache s; filecache := filecache s;
             lastfd := lastfd s + 1; generated := generated s |}).

(** [self.filecache[self.lastfd] = conf] *)
Definition filecache_set (conf : string) : M unit := λ s,
  (Ok (), {| cache := cache s; filecache := <[lastfd s := conf]> (filecache s);
             lastfd := lastfd s; generated := generated s |}).

(** [self.lastfd] *)
Definition get_lastfd : M Z := λ s, (Ok (lastfd s), s).

Definition open (path : string) (flags : Z) : M Z :=
  obj ← lift (getobj path);
  _ ← bump_lastfd;
  conf ← getconfig obj;
  _ ← filecache_set conf;
  get_lastfd.

(** [release] deletes the entry of [self.lastfd]; [fh] is not used. *)
Definition release (path : string) (fh : Z) : M unit := λ s,
  match filecache s !! lastfd s with
  | Some _ =>
      (Ok (), {| cache := cache s; filecache := delete (lastfd s) (filecache s);
                 lastfd := lastfd s; generated := generated s |})
  | None => (Raise KeyError, s)
  end.

Definition read (path : string) (length offset fh : Z) : M string := λ s,
  match filecache s !! fh with
  | None => (Raise KeyError, s)
  | Some doc =>
      let end_ := offset + Z.min (Z.of_nat (String.length doc) - offset) length in
      (encode_ascii (slice doc offset end_), s)
  end.

Definition fsync : M unit := mret ().

(** The attributes after a call, whether it returned or raised. *)
Definition after (c : call) (s : state) : state :=
  match c with
  | CallAccess path mode => s
  | CallGetattr path => snd (getattr path s)
  | CallReaddir path => s
  | CallOpen path flags => snd (open path flags s)
  | CallRelease path fh => snd (release path fh s)
  | CallRead path length offset fh => snd (read path length offset fh s)
  | CallFsync => snd (fsync s)
  | CallGetconfig dapp => snd (getconfig dapp s)
  end.

(** The attributes after a sequence of calls on a fresh instance. *)
Definition run (calls : list call) : state := fold_left (λ s c, after c s) calls init.


(** Every text in the cache and in the table of open files is the text
    generated from a record of the catalog. *)
Definition content_inv (s : state) : Prop :=
  (∀ n conf, cache s !! n = Some conf →
     ∃ d, dict_get n dapps = Some d ∧ conf = config_text d) ∧
  (∀ h doc, filecache s !! h = Some doc →
     ∃ n d, dict_get n dapps = Some d ∧ doc = config_text d).

(** The states after some more calls. *)
Definition run_from (s : state) (calls : list call) : state :=
  fold_left (λ s c, after c s) calls s.

End Filesystem.

(** The handles in use lie between 0 and [self.lastfd]. *)
Definition handles_inv (s : state) : Prop :=
  -1 ≤ lastfd s ∧ ∀ k, is_Some (filecache s !! k) → 0 ≤ k ≤ lastfd s.

(** ** Text by lines *)

(** [s.split('\n')] *)
Fixpoint split_lines (s : string) : list string :=
  match s with
  | EmptyString => [""]
  | String c s' =>
      if Ascii.eqb c newline then "" :: split_lines s'
      else
        match split_lines s' with
        | l :: ls => String c l :: ls
        | [] => [String c ""]
        end
  end.

(** A text without a newline. *)
Definition one_line (s : string) : bool := forall_chars dot_char s.

(** The descriptors whose text fields hold no newline. *)
Definition single_line (d : Dapp) : bool :=
  one_line (description d) && one_line (image d)
  && forallb (λ p, one_line (protocol p)) (ports d).

(** The port entries with [type == "public"], in the order of the record. *)
Definition public_ports (d : Dapp) : list Port :=
  filter (λ p, is_public p = true) (ports d).

(** The line that sets [DAPP_DOCKER_PORTS]. *)
Definition ports_line (d : Dapp) : string :=
  "Environment=DAPP_DOCKER_PORTS=" +:+ dquote
    +:+ join " " (publish_token <$> ports d) +:+ dquote.

Definition image_line (d : Dapp) : string :=
  "Environment=DAPP_DOCKER_IMAGE=" +:+ image d.

Definition image_file_line (d : Dapp) : string :=
  "Environment=DAPP_DOCKER_IMAGE_FILE=/var/lib/docker/preinstall/"
    +:+ replace ":" "_" (replace "/" "_" (image d)) +:+ ".tar".

(** The header comment of the generated text. *)
Definition header : list string :=
  ["#"; "# Automatically generated by FUSE from dApp Hub JSON";
   "# Do not [attempt] to edit"; "#"].

(** The lines of a text that start with [prefix]. *)
Definition lines_with (prefix text : string) : list string :=
  List.filter (String.prefix prefix) (split_lines text).

(** The header of the specification's file format. *)
Definition spec_header : list string :=
  ["#"; "# Automatically generated from dApp Hub catalog"; "# Do not edit"; "#"].

(** The name set that the specification gives: letters, digits, hyphen,
    underscore. *)
Definition spec_name_char (c : ascii) : bool :=
  name_char c || in_range "0" "9" c.

(** ** Groups of a pattern *)

(** [binds n r]: the pattern [r] has a group numbered [n]. *)
Fixpoint binds (n : nat) (r : regex) : bool :=
  match r with
  | Group m r' => Nat.eqb m n || binds n r'
  | Cat r1 r2 => binds n r1 || binds n r2
  | Opt r' => binds n r'
  | _ => false
  end.

(** A continuation keeps group [n] when a value that the group already holds
    is still there in the match it returns. *)
Definition keeps (n : nat) (x : string) (k : kont) : Prop :=
  ∀ pos s g m, k pos s g = Some m → group n g = Some x → group n m = Some x.

(** ** A catalog to run the model on *)

(** The record of the scenario: one dapp with one public port. *)
Definition web : Dapp :=
  {| name := "web"; description := "Web app"; image := "org/web:1";
     ports := [ {| port := 80; protocol := "tcp"; type := "public" |} ] |}.

Definition web_catalog : dict Dapp := load_dapps [web].

Definition web_conf : string := "/dapp@web.service.d/dapp.conf".

Definition web2 : Dapp :=
  {| name := "web2"; description := "Web app"; image := "org/web:2"; ports := [] |}.

(** The port list of the round-trip example: a public and a private port. *)
Definition example_ports : list Port :=
  [ {| port := 80; protocol := "tcp"; type := "public" |};
    {| port := 443; protocol := "tcp"; type := "private" |} ].

(** The descriptor of the round-trip example. *)
Definition shop : Dapp :=
  {| name := "shop"; description := "Shop"; image := "org/shop:3";
     ports := example_ports |}.

(** A descriptor with the ports of the example whose description holds a
    newline and, after it, the text of a line of its own. *)
Definition shop_two_lines : Dapp :=
  {| name := "shop";
     description := "Shop" +:+ nl +:+ "Wants=forward-port@443-tcp.service";
     image := "org/shop:3"; ports := example_ports |}.




Definition web_opened : state := snd (open web_catalog web_conf 0 init).
Definition web_opened_twice : state := snd (open web_catalog web_conf 0 web_opened).

(** A record whose name starts with a digit. *)
Definition nine : Dapp :=
  {| name := "9lives"; description := "Nine lives"; image := "org/nine:9"; ports := [] |}.

(** * Properties *)

(** ** The matcher *)

Lemma star_run p n rest pos g k r :
  forall_chars p n = true →
  star p (pos + String.length n)%nat rest g k = Some r →
  star p pos (n +:+ rest) g k = Some r.
Proof.
  revert pos. induction n as [|c n IH]; intros pos Hn Hk; simpl in *.
  - by rewrite Nat.add_0_r in Hk.
  - apply andb_prop in Hn as [-> Hn].
    rewrite (IH (S pos) Hn); [done|].
    by rewrite Nat.add_succ_l, <- Nat.add_succ_r.
Qed.

(** Whatever [p*] consumed, the continuation ran on a suffix with the same
    groups. *)
Lemma star_inv p s pos g k r :
  star p pos s g k = Some r →
  ∃ pos' s', k pos' s' g = Some r ∧ (String.length s' ≤ String.length s)%nat.
Proof.
  revert pos. induction s as [|c s IH]; intros pos H; simpl in H.
  - eauto.
  - destruct (p c); [|eauto].
    destruct (star p (S pos) s g k) eqn:E.
    + injection H as <-. apply IH in E as (pos' & s' & Hk & Hlen).
      exists pos', s'. split; [done|]. simpl. lia.
    + eauto.
Qed.

Lemma length_append (a b : string) :
  String.length (a +:+ b) = (String.length a + String.length b)%nat.
Proof. induction a as [|c a IH]; simpl; [done|]. by rewrite IH. Qed.

Lemma substring_whole (a b : string) :
  String.substring 0 (String.length a) (a +:+ b) = a.
Proof. induction a as [|c a IH]; simpl; [by destruct b|]. by rewrite IH. Qed.

Lemma substring_nonempty c s m :
  (0 < m)%nat → String.substring 0 m (String c s) ≠ "".
Proof. destruct m; [lia|]. by simpl. Qed.

Lemma substring_prefix (a b : string) :
  String.substring 0 (String.length (a +:+ b) - String.length b) (a +:+ b) = a.
Proof.
  rewrite length_append, Nat.add_sub. apply substring_whole.
Qed.

Lemma rmatch_lits l rest pos s g k :
  rmatch (lits l rest) pos (l +:+ s) g k =
  rmatch rest (pos + String.length l)%nat s g k.
Proof.
  revert pos. induction l as [|c l IH]; intros pos; simpl.
  - by rewrite Nat.add_0_r.
  - rewrite Ascii.eqb_refl, IH. f_equal. lia.
Qed.

(** A greedy [(p+)] takes the whole run [n] when what follows the run cannot
    extend it and the rest of the pattern matches there. *)
Lemma rmatch_group_plus num p n rest T pos g k r :
  n ≠ "" → forall_chars p n = true →
  match rest with String c _ => p c = false | EmptyString => True end →
  rmatch T (pos + String.length n)%nat rest ((num, n) :: g) k = Some r →
  rmatch (Cat (Group num (Plus p)) T) pos (n +:+ rest) g k = Some r.
Proof.
  intros Hne Hn Hrest HT. destruct n as [|c n]; [done|].
  pose proof (substring_prefix (String c n) rest) as Hsub.
  simpl in Hn. apply andb_prop in Hn as [Hc Hn].
  cbn [rmatch]. change (String c n +:+ rest) with (String c (n +:+ rest)) in *.
  cbv beta iota. rewrite Hc. apply star_run; [done|].
  replace (S pos + String.length n)%nat with (pos + String.length (String c n))%nat
    by (simpl; lia).
  destruct rest as [|c' rest]; cbn [star]; [|rewrite Hrest]; by rewrite Hsub.
Qed.

Lemma rmatch_keeps n x r :
  binds n r = false → ∀ k, keeps n x k → keeps n x (λ pos s g, rmatch r pos s g k).
Proof.
  induction r as [| |p|r1 IH1 r2 IH2|m r IH|r IH|p|p]; simpl; intros Hb k Hk pos s g res H Hg.
  - destruct (Nat.eqb pos 0); [eauto|done].
  - destruct s as [|c [|c' s]]; [eauto| |done].
    destruct (Ascii.eqb c newline); [eauto|done].
  - destruct s as [|c s]; [done|]. destruct (p c); [eauto|done].
  - apply orb_false_elim in Hb as [Hb1 Hb2].
    eapply (IH1 Hb1 _ (IH2 Hb2 k Hk)); eauto.
  - apply orb_false_elim in Hb as [Hm Hb].
    eapply (IH Hb); [|exact H|exact Hg].
    intros pos' s' g' res' H' Hg'. eapply Hk; [exact H'|].
    unfold group in *. simpl. by rewrite Hm.
  - destruct (rmatch r pos s g k) eqn:E.
    + injection H as <-. eapply (IH Hb k Hk); eauto.
    + eauto.
  - apply star_inv in H as (pos' & s' & H & _). eauto.
  - destruct s as [|c s]; [done|]. destruct (p c); [|done].
    apply star_inv in H as (pos' & s' & H & _). eauto.
Qed.

Lemma rmatch_lits_inv l rest pos s g k m :
  rmatch (lits l rest) pos s g k = Some m →
  ∃ s', s = l +:+ s' ∧ rmatch rest (pos + String.length l)%nat s' g k = Some m.
Proof.
  revert pos s. induction l as [|c l IH]; intros pos s H; simpl in H.
  - exists s. by rewrite Nat.add_0_r.
  - destruct s as [|c' s]; [done|].
    destruct (Ascii.eqb c c') eqn:E; [|done].
    apply Ascii.eqb_eq in E as <-.
    apply IH in H as (s' & -> & H). exists s'. split; [done|].
    simpl. by rewrite Nat.add_succ_r.
Qed.

(** Group 1 of a match of the pattern is never empty, and the subject starts
    with [/dapp@]. *)
Lemma re_match_group1 path m :
  re_match dapp_pattern path = Some m →
  ∃ n rest, group 1 m = Some n ∧ n ≠ "" ∧ path = "/dapp@" +:+ rest.
Proof.
  unfold re_match, dapp_pattern. cbn [rmatch Nat.eqb]. intros H.
  apply rmatch_lits_inv in H as (s & -> & H). cbn [rmatch] in H.
  destruct s as [|c s]; [done|]. destruct (name_char c); [|done].
  apply star_inv in H as (pos' & s' & H & Hlen).
  eexists _, _. split; [|split; [|done]].
  - refine (rmatch_keeps 1 _ suffix_pattern eq_refl _ _ _ _ _ _ H eq_refl).
    intros ? ? ? ? [= <-] ?. done.
  - apply substring_nonempty. simpl. lia.
Qed.

(** What [re.match] returns on [/dapp@<n>] followed by a tail that the rest of
    the pattern matches. *)
Lemma re_match_name n tail r :
  n ≠ "" → forall_chars name_char n = true →
  match tail with String c _ => name_char c = false | EmptyString => True end →
  rmatch suffix_pattern (6 + String.length n)%nat tail [(1%nat, n)]
    (λ _ _ g, Some g) = Some r →
  re_match dapp_pattern ("/dapp@" +:+ n +:+ tail) = Some r.
Proof.
  intros Hne Hn Htail Hr. unfold re_match, dapp_pattern.
  cbn [rmatch Nat.eqb]. rewrite rmatch_lits.
  by apply rmatch_group_plus.
Qed.

Lemma not_root s : String.eqb ("/dapp@" +:+ s) "/" = false.
Proof. reflexivity. Qed.

Section Classify.

Variable dapps : dict Dapp.

Lemma classify_entity_directory n :
  n ≠ "" → forall_chars name_char n = true →
  classify dapps ("/dapp@" +:+ n +:+ ".service.d") = Directory.
Proof.
  intros Hne Hn. unfold classify. rewrite not_root.
  by rewrite (re_match_name n ".service.d" [(1%nat, n)]).
Qed.

Lemma classify_entity_file n :
  n ≠ "" → forall_chars name_char n = true →
  dict_mem n dapps = true →
  classify dapps ("/dapp@" +:+ n +:+ ".service.d/dapp.conf") = EntityFile n.
Proof.
  intros Hne Hn Hmem. unfold classify. rewrite not_root.
  rewrite (re_match_name n ".service.d/dapp.conf" [(2%nat, "/dapp.conf"); (1%nat, n)]);
    [|done..].
  cbn. by rewrite Hmem.
Qed.

Lemma classify_name_nonempty path n :
  classify dapps path = EntityFile n → n ≠ "".
Proof.
  unfold classify. destruct (String.eqb path "/"); [done|].
  destruct (re_match dapp_pattern path) as [m|] eqn:E; [|done].
  apply re_match_group1 in E as (x & rest & -> & Hx & _).
  destruct (group 2 m) as [fname|]; [|done].
  repeat case_match; try done. by intros [= <-].
Qed.

(** [getobj] raises exactly on the paths that [classify] rejects. *)
Lemma getobj_valid path :
  classify dapps path ≠ Invalid → getobj dapps path = Ok (classify dapps path).
Proof.
  intros H. unfold getobj.
  destruct (classify dapps path) as [| |n] eqn:E; [done|done|].
  apply classify_name_nonempty in E. simpl.
  by destruct (String.eqb_spec n "").
Qed.

Lemma getobj_invalid path :
  classify dapps path = Invalid → getobj dapps path = Raise (FuseOSError ENOENT).
Proof. intros H. unfold getobj. by rewrite H. Qed.

End Classify.

Lemma append_cons c (a b : string) : String c a +:+ b = String c (a +:+ b).
Proof. reflexivity. Qed.

Lemma append_assoc (a b c : string) : (a +:+ b) +:+ c = a +:+ b +:+ c.
Proof. induction a as [|x a IH]; [done|]. by rewrite !append_cons, IH. Qed.

(** [mode & 2**n] is non-zero exactly when bit [n] of [mode] is set. *)
Lemma land_pow2_testbit mode n :
  0 ≤ n → (Z.land mode (2 ^ n) =? 0) = negb (Z.testbit mode n).
Proof.
  intros Hn. destruct (Z.testbit mode n) eqn:Hb; simpl.
  - apply Z.eqb_neq. intros H.
    apply (f_equal (λ z, Z.testbit z n)) in H.
    rewrite Z.land_spec, Hb, Z.pow2_bits_true, Z.bits_0 in H; [done|lia].
  - apply Z.eqb_eq, Z.bits_inj'. intros i Hi.
    rewrite Z.land_spec, Z.bits_0, Z.pow2_bits_eqb by lia.
    destruct (Z.eqb_spec n i) as [<-|]; [by rewrite Hb|apply andb_false_r].
Qed.

(** ** The path classifier *)

(** For a non-empty name [n] of the characters that the pattern admits
    (letters, hyphen, underscore), the path ["/dapp@" + n + ".service.d"] is
    a directory, in the catalog or not, and when [n] is a key of the catalog
    that path followed by ["/dapp.conf"] is the file of [n]. *)
Lemma classify_catalog_names (dapps : dict Dapp) (n : string) :
  n ≠ "" → forall_chars name_char n = true →
  classify dapps ("/dapp@" +:+ n +:+ ".service.d") = Directory ∧
  (dict_mem n dapps = true →
   classify dapps (("/dapp@" +:+ n +:+ ".service.d") +:+ "/dapp.conf") = EntityFile n).
Proof.
  intros Hne Hn. split; [by apply classify_entity_directory|].
  intros Hmem. rewrite !append_assoc. by apply classify_entity_file.
Qed.

(** No digit is in the set of the pattern. *)
Lemma name_char_digit c : in_range "0" "9" c = true → name_char c = false.
Proof.
  destruct c as [[] [] [] [] [] [] [] []]; vm_compute; congruence.
Qed.

(** C10: the two dots of the pattern match any character, so a path that
    has [X] and [Y] in their place is still a directory, and with
    [/dapp.conf] after it and [web] in the catalog it is the file of [web];
    this path is not of the form [/dapp@<name>.service.d]. *)
Theorem classify_unescaped_dots_C10 :
  classify web_catalog "/dapp@webXserviceYd" = Directory ∧
  dict_mem "web" web_catalog = true ∧
  classify web_catalog ("/dapp@webXserviceYd" +:+ "/dapp.conf") = EntityFile "web" ∧
  (∀ n, "/dapp@webXserviceYd" ≠ "/dapp@" +:+ n +:+ ".service.d").
Proof.
  split; [by vm_compute|]. split; [by vm_compute|]. split; [by vm_compute|].
  intros n H.
  pose proof (f_equal String.length H) as Hlen.
  rewrite !length_append in Hlen.
  do 4 (destruct n as [|? n]; simpl in Hlen; try lia).
  cbv in H. discriminate H.
Qed.

(** ** Listing and access checks *)

(** C3: on a path of an entity file [readdir] does not raise; it yields the
    entries of an entity directory.  The test of the guard,
    [type(obj) is dict], holds for nothing that [classify] returns. *)
Theorem readdir_entity_file_C3 (dapps : dict Dapp) (path n : string) :
  classify dapps path = EntityFile n →
  readdir dapps path = Ok ["."; ".."; "dapp.conf"].
Proof.
  intros H. unfold readdir.
  rewrite getobj_valid, H by (by rewrite H). simpl.
  destruct (String.eqb_spec path "/") as [->|]; [|done].
  by vm_compute in H.
Qed.

Lemma readdir_entity_file_C3_witness :
  readdir web_catalog web_conf = Ok ["."; ".."; "dapp.conf"].
Proof. apply (readdir_entity_file_C3 web_catalog web_conf "web"). reflexivity. Defined.

(** C9: on a valid path, [access] raises EACCES when the write bit (bit 1,
    [W_OK]) of the mode is set, and when the execute bit (bit 0, [X_OK]) is
    set on an entity file; every other mode is accepted. *)
Theorem access_valid_path_C9 (dapps : dict Dapp) (path : string) (mode : Z) :
  classify dapps path ≠ Invalid →
  (Z.testbit mode 1 = true → access dapps path mode = Raise (FuseOSError EACCES)) ∧
  (Z.testbit mode 0 = true → is_str (classify dapps path) = true →
   access dapps path mode = Raise (FuseOSError EACCES)) ∧
  (Z.testbit mode 1 = false →
   Z.testbit mode 0 = false ∨ is_str (classify dapps path) = false →
   access dapps path mode = Ok ()).
Proof.
  intros Hvalid. unfold access. rewrite (getobj_valid _ _ Hvalid).
  unfold mbind, result_bind.
  change W_OK with (2 ^ 1). change X_OK with (2 ^ 0).
  rewrite !land_pow2_testbit, !negb_involutive by lia.
  destruct (Z.testbit mode 1), (Z.testbit mode 0), (is_str (classify dapps path));
    repeat split; try done; by intros _ [|].
Qed.

Lemma access_valid_path_C9_witness :
  (Z.testbit 2 1 = true → access web_catalog web_conf 2 = Raise (FuseOSError EACCES)) ∧
  (Z.testbit 2 0 = true → is_str (classify web_catalog web_conf) = true →
   access web_catalog web_conf 2 = Raise (FuseOSError EACCES)) ∧
  (Z.testbit 2 1 = false →
   Z.testbit 2 0 = false ∨ is_str (classify web_catalog web_conf) = false →
   access web_catalog web_conf 2 = Ok ()).
Proof. apply (access_valid_path_C9 web_catalog web_conf 2). by vm_compute. Defined.

(** ** Lines of text *)

Lemma forall_chars_app p a b :
  forall_chars p (a +:+ b) = forall_chars p a && forall_chars p b.
Proof.
  induction a as [|c a IH]; [done|].
  rewrite append_cons. simpl. by rewrite IH, andb_assoc.
Qed.

Lemma split_lines_one_line s : one_line s = true → split_lines s = [s].
Proof.
  unfold one_line. induction s as [|c s IH]; simpl; [done|].
  intros [Hc Hs]%andb_prop. unfold dot_char in Hc.
  destruct (Ascii.eqb c newline); [done|]. by rewrite IH.
Qed.

Lemma split_lines_cons s : ∃ l ls, split_lines s = l :: ls.
Proof.
  induction s as [|c s (l & ls & IH)]; simpl; [eauto|].
  destruct (Ascii.eqb c newline); [eauto|]. rewrite IH. eauto.
Qed.

Lemma split_lines_app_nl a b :
  split_lines (a +:+ nl +:+ b) = split_lines a ++ split_lines b.
Proof.
  induction a as [|c a IH]; [done|].
  rewrite append_cons. simpl. rewrite IH.
  destruct (Ascii.eqb c newline); [done|].
  by destruct (split_lines_cons a) as (l & ls & ->).
Qed.

(** A first line without a newline, then the rest. *)
Lemma split_lines_line a b :
  one_line a = true → split_lines (a +:+ nl +:+ b) = a :: split_lines b.
Proof. intros Ha. by rewrite split_lines_app_nl, split_lines_one_line. Qed.

Lemma split_lines_join items :
  Forall (λ l, one_line l = true) items →
  split_lines (join nl items) = match items with [] => [""] | _ => items end.
Proof.
  induction 1 as [|x items Hx Hitems IH]; [done|].
  destruct items as [|y items]; [by apply split_lines_one_line|].
  change (join nl (x :: y :: items)) with (x +:+ nl +:+ join nl (y :: items)).
  by rewrite split_lines_line, IH.
Qed.

Lemma one_line_app a b : one_line (a +:+ b) = one_line a && one_line b.
Proof. apply forall_chars_app. Qed.

Lemma one_line_uint (u : Decimal.uint) : one_line (NilEmpty.string_of_uint u) = true.
Proof. induction u; simpl; done. Qed.

Lemma one_line_str_of_int n : one_line (str_of_int n) = true.
Proof.
  unfold str_of_int. destruct (Z.to_int n); simpl; apply one_line_uint.
Qed.

Lemma one_line_replace new s :
  dot_char new = true → one_line s = true → ∀ old, one_line (replace old new s) = true.
Proof.
  intros Hnew Hs old. unfold one_line in *.
  induction s as [|c s IH]; simpl in *; [done|].
  apply andb_prop in Hs as [Hc Hs]. rewrite (IH Hs), andb_true_r.
  by destruct (Ascii.eqb c old).
Qed.

Lemma one_line_join sep items :
  one_line sep = true → Forall (λ l, one_line l = true) items →
  one_line (join sep items) = true.
Proof.
  intros Hsep. induction 1 as [|x items Hx Hitems IH]; [done|].
  destruct items as [|y items]; [done|].
  change (join sep (x :: y :: items)) with (x +:+ sep +:+ join sep (y :: items)).
  by rewrite !one_line_app, Hx, Hsep, IH.
Qed.

(** [config_text], cut at its newlines. *)
Lemma config_text_pieces d :
  config_text d =
    join nl header +:+ nl +:+ "[Unit]" +:+ nl +:+
    ("Description=" +:+ description d) +:+ nl +:+
    join nl (wants_line <$> public_ports d) +:+ nl +:+
    "" +:+ nl +:+ "[Service]" +:+ nl +:+
    ports_line d +:+ nl +:+
    "# Making sure we overwrite previous values" +:+ nl +:+
    image_line d +:+ nl +:+ image_file_line d +:+ nl +:+ "" +:+ nl +:+ "".
Proof.
  unfold config_text, ports_line, image_line, image_file_line, public_ports.
  cbv zeta. rewrite !append_assoc. reflexivity.
Qed.

Section Lines.

Variable d : Dapp.
Hypothesis Hd : single_line d = true.

Lemma single_line_description : one_line (description d) = true.
Proof. unfold single_line in Hd. by repeat (apply andb_prop in Hd as [Hd ?]). Qed.

Lemma single_line_image : one_line (image d) = true.
Proof. unfold single_line in Hd. by repeat (apply andb_prop in Hd as [Hd ?]). Qed.

Lemma single_line_protocols : Forall (λ p, one_line (protocol p) = true) (ports d).
Proof.
  unfold single_line in Hd. apply andb_prop in Hd as [_ H].
  apply Forall_forall. intros p Hp. rewrite forallb_forall in H.
  by apply H, list_elem_of_In.
Qed.

Lemma one_line_wants :
  Forall (λ l, one_line l = true) (wants_line <$> public_ports d).
Proof.
  apply Forall_fmap, Forall_forall. intros p Hp. simpl. unfold wants_line.
  apply list_elem_of_filter in Hp as [_ Hp].
  pose proof (proj1 (Forall_forall _ _) single_line_protocols p Hp) as Hproto.
  simpl in Hproto.
  by rewrite !one_line_app, one_line_str_of_int, Hproto.
Qed.

Lemma one_line_ports_line : one_line (ports_line d) = true.
Proof.
  unfold ports_line. rewrite !one_line_app, one_line_join; [done|done|].
  apply Forall_fmap, Forall_forall. intros p Hp. simpl. unfold publish_token.
  pose proof (proj1 (Forall_forall _ _) single_line_protocols p Hp) as Hproto.
  simpl in Hproto.
  by rewrite !one_line_app, one_line_str_of_int, Hproto.
Qed.

Lemma one_line_image_lines :
  one_line (image_line d) = true ∧ one_line (image_file_line d) = true.
Proof.
  pose proof single_line_image as Hi. unfold image_line, image_file_line.
  rewrite !one_line_app, Hi. split; [done|].
  rewrite one_line_replace; [done|done|]. by apply one_line_replace.
Qed.

(** The lines of the generated text, for a descriptor of one-line fields. *)
Lemma config_text_lines :
  split_lines (config_text d) =
    header ++ ["[Unit]"; "Description=" +:+ description d]
    ++ match public_ports d with [] => [""] | ps => wants_line <$> ps end
    ++ [""; "[Service]"; ports_line d;
        "# Making sure we overwrite previous values";
        image_line d; image_file_line d; ""; ""].
Proof.
  destruct one_line_image_lines as [Hil Hifl].
  rewrite config_text_pieces.
  rewrite split_lines_app_nl, (split_lines_join header) by (by repeat constructor).
  rewrite split_lines_line by done.
  rewrite split_lines_line by (by rewrite one_line_app, single_line_description).
  rewrite split_lines_app_nl, (split_lines_join _ one_line_wants).
  rewrite !split_lines_line by (done || apply one_line_ports_line).
  by destruct (public_ports d).
Qed.

End Lines.

(** ** The generated text *)

Lemma filter_wants_lines ps :
  List.filter (String.prefix "Wants=") (wants_line <$> ps) = wants_line <$> ps.
Proof.
  induction ps as [|p ps IH]; [done|].
  change (wants_line <$> p :: ps) with (wants_line p :: (wants_line <$> ps)).
  cbn [List.filter]. change (String.prefix "Wants=" (wants_line p)) with true.
  by rewrite IH.
Qed.

Lemma filter_no_wants_lines ps :
  List.filter (String.prefix "Environment=DAPP_DOCKER_PORTS=") (wants_line <$> ps) = [].
Proof.
  induction ps as [|p ps IH]; [done|].
  change (wants_line <$> p :: ps) with (wants_line p :: (wants_line <$> ps)).
  cbn [List.filter].
  by change (String.prefix "Environment=DAPP_DOCKER_PORTS=" (wants_line p)) with false.
Qed.

Lemma filter_cons_false {A} (P : A → bool) x l :
  P x = false → List.filter P (x :: l) = List.filter P l.
Proof. intros H. simpl. by rewrite H. Qed.

Lemma filter_cons_true {A} (P : A → bool) x l :
  P x = true → List.filter P (x :: l) = x :: List.filter P l.
Proof. intros H. simpl. by rewrite H. Qed.

Lemma lines_with_wants d :
  single_line d = true →
  lines_with "Wants=" (config_text d) = wants_line <$> public_ports d.
Proof.
  intros Hd. unfold lines_with. rewrite (config_text_lines d Hd).
  unfold header. cbn [app]. rewrite !filter_cons_false by reflexivity.
  rewrite List.filter_app, !filter_cons_false by reflexivity.
  destruct (public_ports d) as [|p ps]; [done|].
  by rewrite filter_wants_lines, app_nil_r.
Qed.

Lemma lines_with_ports d :
  single_line d = true →
  lines_with "Environment=DAPP_DOCKER_PORTS=" (config_text d) = [ports_line d].
Proof.
  intros Hd. unfold lines_with. rewrite (config_text_lines d Hd).
  unfold header. cbn [app]. rewrite !filter_cons_false by reflexivity.
  rewrite List.filter_app, !filter_cons_false by reflexivity.
  rewrite filter_cons_true, !filter_cons_false by reflexivity.
  destruct (public_ports d) as [|p ps]; [done|]. by rewrite filter_no_wants_lines.
Qed.

(** For a key of the catalog [genconfig] returns the text of its record. *)
Lemma genconfig_text dapps n d s :
  dict_get n dapps = Some d →
  fst (genconfig dapps (EntityFile n) s) = Ok (config_text d).
Proof. intros H. unfold genconfig. by rewrite H. Qed.

(** C5, as stated, fails: the text generated for [web] does not begin with
    the four header lines of the claim; its second line differs. *)
Lemma genconfig_header_C5_counterexample :
  fst (genconfig web_catalog (EntityFile "web") init) = Ok (config_text web) ∧
  String.prefix (join nl spec_header +:+ nl) (config_text web) = false ∧
  split_lines (config_text web) !! 1%nat
    = Some "# Automatically generated by FUSE from dApp Hub JSON".
Proof. by vm_compute. Qed.

(** C5 (amended): for every descriptor [d] of the catalog, the generated text
    begins with the four header lines that the code writes ([#],
    [# Automatically generated by FUSE from dApp Hub JSON],
    [# Do not [attempt] to edit], [#]), then [[Unit]], then the line
    [Description=] with the description of [d]. *)
Theorem genconfig_header_C5 (dapps : dict Dapp) (n : string) (d : Dapp) (s : state) :
  dict_get n dapps = Some d →
  ∃ rest,
    fst (genconfig dapps (EntityFile n) s) =
      Ok ("#" +:+ nl +:+
          "# Automatically generated by FUSE from dApp Hub JSON" +:+ nl +:+
          "# Do not [attempt] to edit" +:+ nl +:+
          "#" +:+ nl +:+
          "[Unit]" +:+ nl +:+
          "Description=" +:+ description d +:+ nl +:+ rest).
Proof.
  intros H. rewrite (genconfig_text _ _ _ _ H). eexists. f_equal.
  unfold config_text. cbv zeta. rewrite !append_assoc. reflexivity.
Qed.

Lemma genconfig_header_C5_witness :
  ∃ rest,
    fst (genconfig web_catalog (EntityFile "web") init) =
      Ok ("#" +:+ nl +:+
          "# Automatically generated by FUSE from dApp Hub JSON" +:+ nl +:+
          "# Do not [attempt] to edit" +:+ nl +:+
          "#" +:+ nl +:+
          "[Unit]" +:+ nl +:+
          "Description=" +:+ description web +:+ nl +:+ rest).
Proof. apply (genconfig_header_C5 web_catalog "web" web init). reflexivity. Defined.

(** C6, as stated, fails: a description is written as it is, so with a
    newline in it the generated text for the ports of the example has a
    [Wants] line for port 443 besides the one for port 80. *)
Lemma genconfig_ports_C6_counterexample :
  ports shop_two_lines = example_ports ∧
  fst (genconfig (load_dapps [shop_two_lines]) (EntityFile "shop") init)
    = Ok (config_text shop_two_lines) ∧
  lines_with "Wants=" (config_text shop_two_lines)
    = ["Wants=forward-port@443-tcp.service"; "Wants=forward-port@80-tcp.service"].
Proof. by vm_compute. Qed.

(** C6 (amended): in the text generated for a descriptor [d] whose
    description, image and protocols hold no newline, the
    lines that start with [Wants=] are the lines
    [Wants=forward-port@<port>-<protocol>.service] of the port entries with
    [type == "public"], one each and in their order, and the one line that
    sets [DAPP_DOCKER_PORTS] holds the tokens [-p<port>/<protocol>] of all
    port entries, joined by spaces.  For the ports 80/tcp public and 443/tcp
    private that is the one line [Wants=forward-port@80-tcp.service] and the
    value [-p80/tcp -p443/tcp]. *)
Theorem genconfig_ports_C6 (dapps : dict Dapp) (n : string) (d : Dapp) (s : state) :
  dict_get n dapps = Some d →
  single_line d = true →
  ∃ conf,
    fst (genconfig dapps (EntityFile n) s) = Ok conf ∧
    lines_with "Wants=" conf = wants_line <$> filter (λ p, type p = "public") (ports d) ∧
    lines_with "Environment=DAPP_DOCKER_PORTS=" conf =
      ["Environment=DAPP_DOCKER_PORTS=" +:+ dquote
         +:+ join " " (publish_token <$> ports d) +:+ dquote] ∧
    (ports d = example_ports →
     lines_with "Wants=" conf = ["Wants=forward-port@80-tcp.service"] ∧
     lines_with "Environment=DAPP_DOCKER_PORTS=" conf =
       ["Environment=DAPP_DOCKER_PORTS=" +:+ dquote +:+ "-p80/tcp -p443/tcp" +:+ dquote]).
Proof.
  intros Hget Hd. exists (config_text d).
  assert (filter (λ p, type p = "public") (ports d) = public_ports d) as Hpub.
  { unfold public_ports. apply list_filter_iff. intros p. unfold is_public.
    by rewrite String.eqb_eq. }
  split; [by apply genconfig_text|].
  rewrite (lines_with_wants d Hd), (lines_with_ports d Hd), Hpub.
  split; [done|]. split; [done|].
  unfold ports_line, public_ports. by intros ->.
Qed.

Lemma genconfig_ports_C6_witness :
  ∃ conf,
    fst (genconfig (load_dapps [shop]) (EntityFile "shop") init) = Ok conf ∧
    lines_with "Wants=" conf = ["Wants=forward-port@80-tcp.service"] ∧
    lines_with "Environment=DAPP_DOCKER_PORTS=" conf =
      ["Environment=DAPP_DOCKER_PORTS=" +:+ dquote +:+ "-p80/tcp -p443/tcp" +:+ dquote].
Proof.
  destruct (genconfig_ports_C6 (load_dapps [shop]) "shop" shop init eq_refl eq_refl)
    as (conf & Hconf & _ & _ & Hex).
  exists conf. split; [exact Hconf|]. exact (Hex eq_refl).
Defined.

(** ** The cache *)

Section Cache.

Variable dapps : dict Dapp.

(** A hit returns the stored text and leaves every attribute alone. *)
Lemma getconfig_hit n conf s :
  cache s !! n = Some conf →
  getconfig dapps (EntityFile n) s = (Ok conf, s).
Proof.
  intros H. unfold getconfig, mbind, M_bind, cache_has, cache_read. simpl.
  rewrite H. rewrite bool_decide_eq_true_2 by eauto. simpl. by rewrite H.
Qed.

(** A miss on a key of the catalog runs the generator once and stores what
    it returns. *)
Lemma getconfig_miss n d s :
  cache s !! n = None → dict_get n dapps = Some d →
  getconfig dapps (EntityFile n) s =
    (Ok (config_text d),
     {| cache := <[n := config_text d]> (cache s); filecache := filecache s;
        lastfd := lastfd s; generated := EntityFile n :: generated s |}).
Proof.
  intros H Hd. unfold getconfig, mbind, M_bind, cache_has, cache_read, cache_set, genconfig.
  simpl. rewrite H, Hd.
  rewrite bool_decide_eq_false_2 by (by intros [? ?]). simpl.
  by rewrite lookup_insert_eq.
Qed.

(** Anything that is no key of the cache and no key of the catalog makes the
    generator raise; the cache stays as it is. *)
Lemma getconfig_raise obj s :
  cache_get obj s = None →
  match obj with EntityFile n => dict_get n dapps = None | _ => True end →
  getconfig dapps obj s =
    (Raise KeyError,
     {| cache := cache s; filecache := filecache s;
        lastfd := lastfd s; generated := obj :: generated s |}).
Proof.
  intros H Hd. unfold getconfig, mbind, M_bind, cache_has, genconfig.
  rewrite H. rewrite bool_decide_eq_false_2 by (by intros [? ?]). simpl.
  destruct obj as [| |n]; [done|done|]. by rewrite Hd.
Qed.

(** [getconfig] writes neither [self.filecache] nor [self.lastfd]. *)
Lemma getconfig_frame obj s :
  filecache (snd (getconfig dapps obj s)) = filecache s ∧
  lastfd (snd (getconfig dapps obj s)) = lastfd s.
Proof.
  destruct (cache_get obj s) as [conf|] eqn:Hc.
  - destruct obj as [| |n]; [done|done|]. simpl in Hc.
    by rewrite (getconfig_hit _ _ _ Hc).
  - destruct obj as [| |n].
    + by rewrite getconfig_raise.
    + by rewrite getconfig_raise.
    + simpl in Hc. destruct (dict_get n dapps) as [d|] eqn:Hd.
      * by rewrite (getconfig_miss _ _ _ Hc Hd).
      * by rewrite getconfig_raise.
Qed.

End Cache.

(** ** The table of open files *)

Section Handles.

Variable dapps : dict Dapp.

(** A call of [open] that returns: the handle is [self.lastfd + 1], which is
    the new [self.lastfd], and the table gains the text under it. *)
Lemma open_inv path flags s h s' :
  open dapps path flags s = (Ok h, s') →
  h = lastfd s + 1 ∧ lastfd s' = h ∧
  ∃ conf, filecache s' = <[h := conf]> (filecache s).
Proof.
  unfold open, mbind, M_bind, lift, bump_lastfd, filecache_set, get_lastfd.
  destruct (getobj dapps path) as [obj|e]; [|done].
  match goal with |- context [getconfig dapps obj ?s0] =>
    pose proof (getconfig_frame dapps obj s0) as [Hfc Hfd];
    destruct (getconfig dapps obj s0) as [[conf|e] s1]
  end; [|done].
  simpl in *. intros [= <- <-]. simpl. rewrite Hfd, Hfc. eauto.
Qed.

(** [open] on the file of a dapp of the catalog returns. *)
Lemma open_entity_file path flags n s :
  classify dapps path = EntityFile n →
  ∃ h s', open dapps path flags s = (Ok h, s').
Proof.
  intros Hc. unfold open, mbind, M_bind, lift, bump_lastfd, filecache_set, get_lastfd.
  rewrite getobj_valid, Hc by (by rewrite Hc).
  assert (∃ d, dict_get n dapps = Some d) as [d Hd].
  { unfold classify in Hc. repeat case_match; try done.
    injection Hc as ->. unfold dict_mem in *.
    destruct (dict_get n dapps); [eauto|done]. }
  match goal with |- context [getconfig dapps _ ?s0] =>
    destruct (cache s0 !! n) as [conf|] eqn:Hcache;
    [rewrite (getconfig_hit dapps n conf s0 Hcache)
    |rewrite (getconfig_miss dapps n d s0 Hcache Hd)]
  end; eauto.
Qed.

(** [release] with a table that holds [self.lastfd]: that entry goes,
    whatever [fh] is. *)
Lemma release_last path fh s conf :
  filecache s !! lastfd s = Some conf →
  release path fh s =
    (Ok (), {| cache := cache s; filecache := delete (lastfd s) (filecache s);
               lastfd := lastfd s; generated := generated s |}).
Proof. intros H. unfold release. by rewrite H. Qed.

(** [read] of a handle that the table does not hold raises KeyError. *)
Lemma read_unallocated path length offset fh s :
  filecache s !! fh = None →
  read path length offset fh s = (Raise KeyError, s).
Proof. intros H. unfold read. by rewrite H. Qed.

End Handles.

(** Two calls of [open] in a row, then [release] of the first handle: the
    entry of the second handle goes, the entry of the first stays. *)
Lemma release_after_two_opens dapps p1 f1 p2 f2 s h1 s1 h2 s2 path fh :
  open dapps p1 f1 s = (Ok h1, s1) →
  open dapps p2 f2 s1 = (Ok h2, s2) →
  h2 = h1 + 1 ∧
  ∃ s3, release path fh s2 = (Ok (), s3) ∧
        filecache s3 !! h2 = None ∧
        filecache s3 !! h1 = filecache s1 !! h1 ∧
        is_Some (filecache s3 !! h1).
Proof.
  intros (-> & Hfd1 & c1 & Hfc1)%open_inv (-> & Hfd2 & c2 & Hfc2)%open_inv.
  rewrite Hfd1 in *. split; [done|].
  assert (filecache s2 !! lastfd s2 = Some c2) as Hlast
    by (by rewrite Hfd2, Hfc2, lookup_insert_eq).
  eexists. split; [by apply (release_last _ _ _ c2)|]. simpl.
  rewrite Hfd2, Hfc2, Hfc1. split; [by rewrite lookup_delete_eq|].
  rewrite lookup_delete_ne, lookup_insert_ne, lookup_insert_eq by lia. eauto.
Qed.

Lemma web_opened_eq : open web_catalog web_conf 0 init = (Ok 0, web_opened).
Proof. by vm_compute. Qed.

Lemma web_opened_twice_eq :
  open web_catalog web_conf 0 web_opened = (Ok 1, web_opened_twice).
Proof. by vm_compute. Qed.

(** C1: two calls of [open] in a row return distinct handles, but [release]
    of the first-returned handle deletes the entry of [self.lastfd], the
    second handle: after it the second handle is gone and a read on it
    raises KeyError, while the handle that was passed is still allocated
    with its content. *)
Theorem release_frees_last_opened_C1 (dapps : dict Dapp) (p1 p2 : string)
    (f1 f2 : Z) (s s1 s2 : state) (h1 h2 : Z) :
  open dapps p1 f1 s = (Ok h1, s1) →
  open dapps p2 f2 s1 = (Ok h2, s2) →
  h1 ≠ h2 ∧
  ∃ s3, release p1 h1 s2 = (Ok (), s3) ∧
        filecache s3 !! h2 = None ∧
        (∀ length offset, read p2 length offset h2 s3 = (Raise KeyError, s3)) ∧
        filecache s3 !! h1 = filecache s1 !! h1 ∧
        is_Some (filecache s3 !! h1).
Proof.
  intros H1 H2.
  destruct (release_after_two_opens _ _ _ _ _ _ _ _ _ _ p1 h1 H1 H2)
    as (-> & s3 & Hrel & Hgone & Hsame & Hstill).
  split; [lia|]. exists s3. repeat split; try done.
  intros length offset. by apply read_unallocated.
Qed.

Lemma release_frees_last_opened_C1_witness :
  0 ≠ 1 ∧
  ∃ s3, release web_conf 0 web_opened_twice = (Ok (), s3) ∧
        filecache s3 !! 1 = None ∧
        (∀ length offset, read web_conf length offset 1 s3 = (Raise KeyError, s3)) ∧
        filecache s3 !! 0 = filecache web_opened !! 0 ∧
        is_Some (filecache s3 !! 0).
Proof.
  exact (release_frees_last_opened_C1 web_catalog web_conf web_conf 0 0
           init web_opened web_opened_twice 0 1 web_opened_eq web_opened_twice_eq).
Defined.

(** C4: a read of a handle that is not allocated raises KeyError, but
    [release] of such a handle does not fail: right after an [open] it
    returns and frees the handle just opened; and after a further [open],
    [release] of the first handle leaves that handle allocated, so a read
    issued after releasing it still returns. *)
Theorem release_ignores_handle_C4 (dapps : dict Dapp) (path : string) (flags : Z)
    (s s1 : state) (h fh : Z) :
  open dapps path flags s = (Ok h, s1) →
  filecache s1 !! fh = None →
  (∀ length offset, read path length offset fh s1 = (Raise KeyError, s1)) ∧
  (∃ s2, release path fh s1 = (Ok (), s2) ∧ filecache s2 !! h = None) ∧
  (∀ p2 f2 h2 s2, open dapps p2 f2 s1 = (Ok h2, s2) →
     ∃ s3, release path h s2 = (Ok (), s3) ∧
           ∀ length offset,
             fst (read path length offset h s3) = fst (read path length offset h s1) ∧
             fst (read path length offset h s3) ≠ Raise KeyError).
Proof.
  intros Hopen Hfh. split; [intros; by apply read_unallocated|]. split.
  - pose proof Hopen as (-> & Hfd & c & Hfc)%open_inv.
    assert (filecache s1 !! lastfd s1 = Some c) as Hlast
      by (by rewrite Hfd, Hfc, lookup_insert_eq).
    eexists. split; [by apply (release_last _ _ _ c)|]. simpl.
    by rewrite Hfd, lookup_delete_eq.
  - intros p2 f2 h2 s2 H2.
    destruct (release_after_two_opens _ _ _ _ _ _ _ _ _ _ path h Hopen H2)
      as (_ & s3 & Hrel & _ & Hsame & [c Hc]).
    exists s3. split; [done|]. intros length offset. unfold read.
    rewrite <- Hsame, Hc. split; [done|]. unfold encode_ascii. by case_match.
Qed.

Lemma release_ignores_handle_C4_witness :
  (∀ length offset, read web_conf length offset 5 web_opened = (Raise KeyError, web_opened)) ∧
  (∃ s2, release web_conf 5 web_opened = (Ok (), s2) ∧ filecache s2 !! 0 = None) ∧
  (∀ p2 f2 h2 s2, open web_catalog p2 f2 web_opened = (Ok h2, s2) →
     ∃ s3, release web_conf 0 s2 = (Ok (), s3) ∧
           ∀ length offset,
             fst (read web_conf length offset 0 s3)
               = fst (read web_conf length offset 0 web_opened) ∧
             fst (read web_conf length offset 0 s3) ≠ Raise KeyError).
Proof.
  apply (release_ignores_handle_C4 web_catalog web_conf 0 init web_opened 0 5
           web_opened_eq).
  by vm_compute.
Defined.

(** ** Reading *)

Lemma substring_past_end n m s :
  (String.length s ≤ n)%nat → String.substring n m s = "".
Proof.
  revert n m. induction s as [|c s IH]; intros [|n] m H; simpl in *;
    try lia; try done.
  - by destruct m.
  - apply IH. lia.
Qed.

(** [substring] stops at the end of the string: asking for more than is
    left gives what is left. *)
Lemma substring_clip n m s :
  String.substring n (Nat.min (String.length s - n) m) s = String.substring n m s.
Proof.
  revert n m. induction s as [|c s IH]; intros n m.
  - by destruct n, m.
  - destruct n as [|n]; [|apply IH].
    destruct m as [|m]; [done|].
    change (String.length (String c s) - 0)%nat with (S (String.length s)).
    rewrite <- Nat.succ_min_distr. cbn [String.substring]. f_equal.
    rewrite <- (IH 0%nat m). by rewrite Nat.sub_0_r.
Qed.

Lemma forall_chars_substring p n m s :
  forall_chars p s = true → forall_chars p (String.substring n m s) = true.
Proof.
  revert n m. induction s as [|c s IH]; intros n m H.
  - by destruct n, m.
  - simpl in H. apply andb_prop in H as [Hc Hs].
    destruct n as [|n]; simpl; [|by apply IH].
    destruct m as [|m]; simpl; [done|]. by rewrite Hc, IH.
Qed.

(** The slice of [read] for an offset and a length that are not negative. *)
Lemma read_slice doc offset length :
  0 ≤ offset → 0 ≤ length →
  slice doc offset (offset + Z.min (Z.of_nat (String.length doc) - offset) length)
  = String.substring (Z.to_nat offset) (Z.to_nat length) doc.
Proof.
  intros Ho Hl. unfold slice, slice_index.
  set (len := Z.of_nat (String.length doc)).
  assert (0 ≤ len) by lia.
  destruct (Z.ltb_spec offset 0); [lia|].
  destruct (Z.ltb_spec (offset + Z.min (len - offset) length) 0); [lia|].
  destruct (Z.le_gt_cases offset len) as [Hin|Hout].
  - rewrite (Z.min_l offset len) by lia.
    rewrite <- (substring_clip (Z.to_nat offset) (Z.to_nat length)).
    f_equal. lia.
  - rewrite (Z.min_r offset len) by lia.
    rewrite !substring_past_end by lia. done.
Qed.





(** ** The life of an instance *)

Section Life.

Variable dapps : dict Dapp.






End Life.



(** * Further properties *)

(** ** The catalog as built by [__init__] *)

Lemma dict_get_set_eq {V} k (v : V) d : dict_get k (dict_set k v d) = Some v.
Proof.
  induction d as [|[k' v'] d IH]; simpl.
  - by rewrite String.eqb_refl.
  - destruct (String.eqb_spec k k') as [->|Hne]; simpl.
    + by rewrite String.eqb_refl.
    + by destruct (String.eqb_spec k k').
Qed.

Lemma dict_get_set_ne {V} k k' (v : V) d :
  k ≠ k' → dict_get k' (dict_set k v d) = dict_get k' d.
Proof.
  intros Hne. induction d as [|[k0 v0] d IH]; simpl.
  - by destruct (String.eqb_spec k' k) as [->|].
  - destruct (String.eqb_spec k k0) as [->|Hk]; simpl.
    + by destruct (String.eqb_spec k' k0) as [->|].
    + by rewrite IH.
Qed.

Lemma dict_keys_set {V} k (v : V) d :
  dict_keys (dict_set k v d) =
    if bool_decide (k ∈ dict_keys d) then dict_keys d else dict_keys d ++ [k].
Proof.
  induction d as [|[k0 v0] d IH]; [done|].
  change (dict_keys ((k0, v0) :: d)) with (k0 :: dict_keys d).
  cbn [dict_set]. destruct (String.eqb_spec k k0) as [->|Hk].
  - rewrite bool_decide_eq_true_2; [done|]. apply list_elem_of_here.
  - change (dict_keys ((k0, v0) :: dict_set k v d))
      with (k0 :: dict_keys (dict_set k v d)).
    rewrite IH. case_bool_decide as E.
    + rewrite bool_decide_eq_true_2; [done|]. by apply list_elem_of_further.
    + rewrite bool_decide_eq_false_2; [done|].
      by intros [?|?]%elem_of_cons.
Qed.

Lemma load_dapps_snoc l v :
  load_dapps (l ++ [v]) = dict_set (name v) v (load_dapps l).
Proof. unfold load_dapps. by rewrite fold_left_app. Qed.

Lemma load_dapps_last_wins_find (jsonobj : list Dapp) (n : string) :
  dict_get n (load_dapps jsonobj)
  = List.find (λ v, String.eqb (name v) n) (rev jsonobj).
Proof.
  induction jsonobj as [|v l IH] using rev_ind; [done|].
  rewrite load_dapps_snoc, rev_unit. simpl.
  destruct (String.eqb_spec (name v) n) as [<-|Hne].
  - apply dict_get_set_eq.
  - by rewrite dict_get_set_ne.
Qed.

(** X1: the record under a name is the last record of the file with that
    name, and a name that no record has is no key. *)
Theorem load_dapps_last_wins (jsonobj : list Dapp) (n : string) :
  dict_get n (load_dapps jsonobj)
  = List.find (λ v, String.eqb (name v) n) (rev jsonobj).
Proof.
  induction jsonobj as [|v l IH] using rev_ind; [done|].
  rewrite load_dapps_snoc, rev_unit. simpl.
  destruct (String.eqb_spec (name v) n) as [<-|Hne].
  - apply dict_get_set_eq.
  - by rewrite dict_get_set_ne.
Qed.

(** The keys are the names in the order of their first record. *)
Lemma elem_of_rev {A} (x : A) l : x ∈ rev l ↔ x ∈ l.
Proof. by rewrite !list_elem_of_In, <- in_rev. Qed.

Lemma load_dapps_keys l :
  dict_keys (load_dapps l) = rev (remove_dups (rev (name <$> l))).
Proof.
  induction l as [|v l IH] using rev_ind; [done|].
  rewrite load_dapps_snoc, dict_keys_set, IH, fmap_app, rev_app_distr.
  change (rev (name <$> [v]) ++ rev (name <$> l)) with (name v :: rev (name <$> l)).
  cbn [remove_dups].
  destruct (decide_rel elem_of (name v) (rev (name <$> l))) as [Hin|Hout].
  - rewrite bool_decide_eq_true_2; [done|].
    by rewrite elem_of_rev, elem_of_remove_dups.
  - rewrite bool_decide_eq_false_2; [done|].
    by rewrite elem_of_rev, elem_of_remove_dups.
Qed.

Lemma load_dapps_key_names l n :
  n ∈ dict_keys (load_dapps l) ↔ ∃ v, v ∈ l ∧ name v = n.
Proof.
  rewrite load_dapps_keys, elem_of_rev, elem_of_remove_dups, elem_of_rev, list_elem_of_fmap.
  split; intros (v & ? & ?); by exists v.
Qed.

(** X2: the root lists one directory per name of the file, in the order in
    which the names first occur, whatever the names are. *)
Theorem readdir_root_lists_names (jsonobj : list Dapp) :
  ∃ keys,
    readdir (load_dapps jsonobj) "/"
      = Ok ("." :: ".." :: ((λ n, "dapp@" +:+ n +:+ ".service.d") <$> keys)) ∧
    keys = rev (remove_dups (rev (name <$> jsonobj))) ∧
    NoDup keys ∧
    ∀ n, n ∈ keys ↔ ∃ v, v ∈ jsonobj ∧ name v = n.
Proof.
  exists (dict_keys (load_dapps jsonobj)). split; [done|].
  rewrite load_dapps_keys. split; [done|]. split.
  - apply NoDup_ListNoDup, NoDup_rev, NoDup_ListNoDup, NoDup_remove_dups.
  - intros n. rewrite <- load_dapps_keys. apply load_dapps_key_names.
Qed.

(** ** The shape of the paths that the pattern matches *)

(** What [p*] consumed is a run of [p], and the continuation ran on the
    rest. *)
Lemma star_inv_run p s pos g k r :
  star p pos s g k = Some r →
  ∃ run s', s = run +:+ s' ∧ forall_chars p run = true ∧
            k (pos + String.length run)%nat s' g = Some r.
Proof.
  revert pos. induction s as [|c s IH]; intros pos H; simpl in H.
  - exists "", "". by rewrite Nat.add_0_r.
  - destruct (p c) eqn:Hc.
    + destruct (star p (S pos) s g k) eqn:E.
      * injection H as <-. apply IH in E as (run & s' & -> & Hrun & Hk).
        exists (String c run), s'. split; [done|]. simpl. rewrite Hc, Hrun.
        split; [done|]. by rewrite Nat.add_succ_r.
      * exists "", (String c s). by rewrite Nat.add_0_r.
    + exists "", (String c s). by rewrite Nat.add_0_r.
Qed.

(** The tails that the part of the pattern after the name matches: any
    character, [service], any character, [d], then nothing or a slash and a
    run of characters, up to the end or a last newline. *)
Lemma suffix_pattern_inv pos s g m :
  rmatch suffix_pattern pos s g (λ _ _ g', Some g') = Some m →
  ∃ c1 c2 tail,
    dot_char c1 = true ∧ dot_char c2 = true ∧ (tail = "" ∨ tail = nl) ∧
    ((s = String c1 ("service" +:+ String c2 ("d" +:+ tail)) ∧ m = g) ∨
     (∃ f, forall_chars dot_char f = true ∧
           s = String c1 ("service" +:+ String c2 ("d" +:+ String "/" f +:+ tail)) ∧
           m = (2%nat, String "/" f) :: g)).
Proof.
  unfold suffix_pattern, dot, lit. cbn [rmatch]. intros H.
  destruct s as [|c1 s]; [done|].
  destruct (dot_char c1) eqn:Hc1; [|done].
  apply rmatch_lits_inv in H as (s2 & -> & H). cbn [rmatch] in H.
  destruct s2 as [|c2 s3]; [done|]. destruct (dot_char c2) eqn:Hc2; [|done].
  destruct s3 as [|c s4]; [done|].
  destruct (Ascii.eqb_spec "d" c) as [<-|]; [|done].
  exists c1, c2.
  match type of H with
  | match ?grp with Some _ => _ | None => _ end = _ => destruct grp as [res|] eqn:E
  end.
  - injection H as ->. destruct s4 as [|c s5]; [done|].
    destruct (Ascii.eqb_spec "/" c) as [<-|]; [|done].
    apply star_inv_run in E as (f & tail & -> & Hf & E).
    pose proof (substring_prefix (String "/" f) tail) as Hsub.
    change (String "/" f +:+ tail) with (String "/" (f +:+ tail)) in Hsub.
    rewrite Hsub in E. clear Hsub.
    exists tail.
    assert ((tail = "" ∨ tail = nl) ∧ m = (2%nat, String "/" f) :: g) as [Htail ->].
    { destruct tail as [|c [|c' t]]; [by injection E as <-; eauto| |done].
      destruct (Ascii.eqb_spec c newline) as [->|]; [|done].
      injection E as <-; eauto. }
    repeat split; try done. right. by exists f.
  - exists s4.
    assert ((s4 = "" ∨ s4 = nl) ∧ m = g) as [Htail ->].
    { destruct s4 as [|c [|c' t]]; [by injection H as <-; eauto| |done].
      destruct (Ascii.eqb_spec c newline) as [->|]; [|done].
      injection H as <-; eauto. }
    repeat split; try done. by left.
Qed.

(** Every subject that the pattern matches is [/dapp@], a non-empty name of
    name characters, and a tail as above; group 1 is the name and group 2,
    when it took part, the slash and what follows it. *)
Lemma re_match_inv path m :
  re_match dapp_pattern path = Some m →
  ∃ n c1 c2 tail,
    n ≠ "" ∧ forall_chars name_char n = true ∧
    dot_char c1 = true ∧ dot_char c2 = true ∧ (tail = "" ∨ tail = nl) ∧
    ((path = "/dapp@" +:+ n +:+ String c1 ("service" +:+ String c2 ("d" +:+ tail)) ∧
      m = [(1%nat, n)]) ∨
     (∃ f, forall_chars dot_char f = true ∧
           path = "/dapp@" +:+ n +:+
                    String c1 ("service" +:+ String c2 ("d" +:+ String "/" f +:+ tail)) ∧
           m = [(2%nat, String "/" f); (1%nat, n)])).
Proof.
  unfold re_match, dapp_pattern. cbn [rmatch Nat.eqb]. intros H.
  apply rmatch_lits_inv in H as (s & -> & H). cbn [rmatch] in H.
  destruct s as [|c s]; [done|]. destruct (name_char c) eqn:Hc; [|done].
  apply star_inv_run in H as (run & s' & -> & Hrun & H).
  pose proof (substring_prefix (String c run) s') as Hsub.
  change (String c run +:+ s') with (String c (run +:+ s')) in Hsub.
  rewrite Hsub in H. clear Hsub.
  apply suffix_pattern_inv in H as (c1 & c2 & tail & Hc1 & Hc2 & Htail & H).
  exists (String c run), c1, c2, tail.
  split; [done|]. split; [by simpl; rewrite Hc|].
  do 3 (split; [done|]).
  destruct H as [[-> ->]|(f & Hf & -> & ->)]; [by left|right].
  exists f. by rewrite !append_cons.
Qed.

Section ClassifyShape.

Variable dapps : dict Dapp.


(** X3: [classify] returns a dapp name only for a key of the catalog, and
    only on a path that is [/dapp@], that name, any character, [service],
    any character, [d/dapp.conf], and at most a last newline. *)
Theorem classify_entity_file_inv (path n : string) :
  classify dapps path = EntityFile n →
  dict_mem n dapps = true ∧ n ≠ "" ∧ forall_chars name_char n = true ∧
  ∃ c1 c2 tail,
    dot_char c1 = true ∧ dot_char c2 = true ∧ (tail = "" ∨ tail = nl) ∧
    path = "/dapp@" +:+ n +:+
             String c1 ("service" +:+ String c2 ("d" +:+ "/dapp.conf" +:+ tail)).
Proof.
  unfold classify. destruct (String.eqb path "/"); [done|].
  destruct (re_match dapp_pattern path) as [m|] eqn:E; [|done].
  apply re_match_inv in E
    as (x & c1 & c2 & tail & Hx & Hname & Hc1 & Hc2 & Htail & [[-> ->]|(f & Hf & -> & ->)]);
    [done|].
  cbn [group List.find fst snd Nat.eqb fmap option_fmap option_map].
  change (String.eqb (String "/" f) "") with false. cbv iota.
  destruct (dict_mem x dapps) eqn:Hmem; cbn [negb]; [|done].
  destruct (String.eqb_spec (String "/" f) "/dapp.conf") as [Hf'|]; [|done].
  intros [= <-]. rewrite Hf'. do 3 (split; [done|]).
  by exists c1, c2, tail.
Qed.

(** X4: [classify] returns [True] only on the root and on a path that is
    [/dapp@], a non-empty name of name characters, any character,
    [service], any character, [d], and at most a last newline. *)
Theorem classify_directory_inv (path : string) :
  classify dapps path = Directory →
  path = "/" ∨
  ∃ n c1 c2 tail,
    n ≠ "" ∧ forall_chars name_char n = true ∧
    dot_char c1 = true ∧ dot_char c2 = true ∧ (tail = "" ∨ tail = nl) ∧
    path = "/dapp@" +:+ n +:+ String c1 ("service" +:+ String c2 ("d" +:+ tail)).
Proof.
  unfold classify. destruct (String.eqb_spec path "/") as [->|Hroot]; [by left|].
  destruct (re_match dapp_pattern path) as [m|] eqn:E; [|done].
  apply re_match_inv in E
    as (x & c1 & c2 & tail & Hx & Hname & Hc1 & Hc2 & Htail & [[-> ->]|(f & Hf & -> & ->)]).
  - intros _. right. by exists x, c1, c2, tail.
  - cbn [group List.find fst snd Nat.eqb fmap option_fmap option_map].
    change (String.eqb (String "/" f) "") with false. cbv iota.
    destruct (dict_mem x dapps); cbn [negb]; [|done].
    by destruct (String.eqb (String "/" f) "/dapp.conf").
Qed.

(** A path whose name starts with a character outside the set of the
    pattern, a digit for one, is invalid. *)
Lemma classify_bad_first_char c rest :
  name_char c = false → classify dapps ("/dapp@" +:+ String c rest) = Invalid.
Proof.
  intros Hc. unfold classify. rewrite not_root.
  destruct (re_match dapp_pattern ("/dapp@" +:+ String c rest)) as [m|] eqn:E; [|done].
  apply re_match_inv in E as (n & c1 & c2 & tail & Hn & Hname & _ & _ & _ & E).
  assert (∃ t, String c rest = n +:+ t) as [t Ht].
  { destruct E as [[E _]|(f & _ & E & _)];
      apply (inj (String.append "/dapp@")) in E; eauto. }
  destruct n as [|c' n]; [done|]. injection Ht as <- _.
  simpl in Hname. by rewrite Hc in Hname.
Qed.

End ClassifyShape.

Lemma classify_entity_file_inv_witness :
  dict_mem "web" web_catalog = true ∧ "web" ≠ "" ∧ forall_chars name_char "web" = true ∧
  ∃ c1 c2 tail,
    dot_char c1 = true ∧ dot_char c2 = true ∧ (tail = "" ∨ tail = nl) ∧
    web_conf = "/dapp@" +:+ "web" +:+
                 String c1 ("service" +:+ String c2 ("d" +:+ "/dapp.conf" +:+ tail)).
Proof. apply (classify_entity_file_inv web_catalog web_conf "web"). reflexivity. Defined.

Lemma classify_directory_inv_witness :
  "/dapp@ghost.service.d" = "/" ∨
  ∃ n c1 c2 tail,
    n ≠ "" ∧ forall_chars name_char n = true ∧
    dot_char c1 = true ∧ dot_char c2 = true ∧ (tail = "" ∨ tail = nl) ∧
    "/dapp@ghost.service.d"
      = "/dapp@" +:+ n +:+ String c1 ("service" +:+ String c2 ("d" +:+ tail)).
Proof. apply (classify_directory_inv web_catalog "/dapp@ghost.service.d"). reflexivity. Defined.

(** ** Paths that do not resolve *)

Section NotFound.

Variable dapps : dict Dapp.

Lemma getattr_invalid path s :
  classify dapps path = Invalid →
  getattr dapps path s = (Raise (FuseOSError ENOENT), s).
Proof.
  intros H. unfold getattr, mbind, M_bind, lift. by rewrite (getobj_invalid _ _ H).
Qed.

Lemma open_invalid path flags s :
  classify dapps path = Invalid →
  open dapps path flags s = (Raise (FuseOSError ENOENT), s).
Proof.
  intros H. unfold open, mbind, M_bind, lift. by rewrite (getobj_invalid _ _ H).
Qed.

(** X5: on a path that [classify] rejects every operation that takes a path
    raises ENOENT and leaves the attributes as they were; [open] does not
    use up a handle number. *)
Theorem invalid_path_enoent (path : string) (mode flags : Z) (s : state) :
  classify dapps path = Invalid →
  access dapps path mode = Raise (FuseOSError ENOENT) ∧
  readdir dapps path = Raise (FuseOSError ENOENT) ∧
  getattr dapps path s = (Raise (FuseOSError ENOENT), s) ∧
  open dapps path flags s = (Raise (FuseOSError ENOENT), s).
Proof.
  intros H. split; [|split; [|split]].
  - unfold access, mbind, result_bind. by rewrite (getobj_invalid _ _ H).
  - unfold readdir, mbind, result_bind. by rewrite (getobj_invalid _ _ H).
  - by apply getattr_invalid.
  - by apply open_invalid.
Qed.

(** The file of a name that is no key of the catalog is invalid. *)
Lemma classify_unknown_file n :
  n ≠ "" → forall_chars name_char n = true → dict_mem n dapps = false →
  classify dapps ("/dapp@" +:+ n +:+ ".service.d/dapp.conf") = Invalid.
Proof.
  intros Hne Hn Hmem. unfold classify. rewrite not_root.
  rewrite (re_match_name n ".service.d/dapp.conf" [(2%nat, "/dapp.conf"); (1%nat, n)]);
    [|done..].
  cbn. by rewrite Hmem.
Qed.

(** X6: the directory of a well-formed name that is no key of the catalog
    can be listed, and the listing names [dapp.conf]; but that file does not
    resolve: [getattr] and [open] on it raise ENOENT. *)
Theorem readdir_lists_missing_file (n : string) (flags : Z) (s : state) :
  n ≠ "" → forall_chars name_char n = true → dict_mem n dapps = false →
  readdir dapps ("/dapp@" +:+ n +:+ ".service.d") = Ok ["."; ".."; "dapp.conf"] ∧
  getattr dapps (("/dapp@" +:+ n +:+ ".service.d") +:+ "/" +:+ "dapp.conf") s
    = (Raise (FuseOSError ENOENT), s) ∧
  open dapps (("/dapp@" +:+ n +:+ ".service.d") +:+ "/" +:+ "dapp.conf") flags s
    = (Raise (FuseOSError ENOENT), s).
Proof.
  intros Hne Hn Hmem. split.
  - unfold readdir. rewrite getobj_valid; rewrite classify_entity_directory by done;
      [|done]. by rewrite not_root.
  - rewrite !append_assoc.
    change (".service.d" +:+ "/" +:+ "dapp.conf") with ".service.d/dapp.conf".
    pose proof (classify_unknown_file n Hne Hn Hmem) as H.
    split; [by apply getattr_invalid|by apply open_invalid].
Qed.

End NotFound.

Lemma readdir_lists_missing_file_witness :
  readdir web_catalog ("/dapp@" +:+ "ghost" +:+ ".service.d") = Ok ["."; ".."; "dapp.conf"] ∧
  getattr web_catalog (("/dapp@" +:+ "ghost" +:+ ".service.d") +:+ "/" +:+ "dapp.conf") init
    = (Raise (FuseOSError ENOENT), init) ∧
  open web_catalog (("/dapp@" +:+ "ghost" +:+ ".service.d") +:+ "/" +:+ "dapp.conf") 0 init
    = (Raise (FuseOSError ENOENT), init).
Proof.
  apply (readdir_lists_missing_file web_catalog "ghost" 0 init); [done|reflexivity..].
Defined.

Lemma invalid_path_enoent_witness :
  access web_catalog "/etc" 4 = Raise (FuseOSError ENOENT) ∧
  readdir web_catalog "/etc" = Raise (FuseOSError ENOENT) ∧
  getattr web_catalog "/etc" init = (Raise (FuseOSError ENOENT), init) ∧
  open web_catalog "/etc" 0 init = (Raise (FuseOSError ENOENT), init).
Proof. apply (invalid_path_enoent web_catalog "/etc" 4 0 init). reflexivity. Defined.

(** X7: the root lists a directory for every name of the file, also for a
    name that starts with a character outside the set of the pattern (a
    digit, say); such an entry does not resolve: [getattr] on it raises
    ENOENT. *)
Theorem root_entry_not_found (jsonobj : list Dapp) (v : Dapp) (c : ascii)
    (rest : string) (s : state) :
  v ∈ jsonobj → name v = String c rest → name_char c = false →
  ∃ entries,
    readdir (load_dapps jsonobj) "/" = Ok entries ∧
    "dapp@" +:+ name v +:+ ".service.d" ∈ entries ∧
    getattr (load_dapps jsonobj) ("/" +:+ "dapp@" +:+ name v +:+ ".service.d") s
      = (Raise (FuseOSError ENOENT), s).
Proof.
  intros Hv Hname Hc.
  eexists. split; [reflexivity|]. split.
  - do 2 apply list_elem_of_further.
    apply (list_elem_of_fmap_2 (λ n, "dapp@" +:+ n +:+ ".service.d")).
    apply load_dapps_key_names. by exists v.
  - rewrite Hname. apply getattr_invalid.
    apply (classify_bad_first_char (load_dapps jsonobj) c (rest +:+ ".service.d") Hc).
Qed.

Lemma root_entry_not_found_witness :
  ∃ entries,
    readdir (load_dapps [web; nine]) "/" = Ok entries ∧
    "dapp@" +:+ name nine +:+ ".service.d" ∈ entries ∧
    getattr (load_dapps [web; nine]) ("/" +:+ "dapp@" +:+ name nine +:+ ".service.d") init
      = (Raise (FuseOSError ENOENT), init).
Proof.
  apply (root_entry_not_found [web; nine] nine "9" "lives" init);
    [apply list_elem_of_further, list_elem_of_here | reflexivity | reflexivity].
Defined.

(** X8: [$] also holds before a last newline, so a path of a catalog name
    with a newline after it classifies like the path without it. *)
Theorem classify_trailing_newline (dapps : dict Dapp) (n : string) :
  n ≠ "" → forall_chars name_char n = true →
  classify dapps (("/dapp@" +:+ n +:+ ".service.d") +:+ nl) = Directory ∧
  (dict_mem n dapps = true →
   classify dapps (("/dapp@" +:+ n +:+ ".service.d/dapp.conf") +:+ nl) = EntityFile n).
Proof.
  intros Hne Hn. rewrite !append_assoc. unfold classify. rewrite !not_root. split.
  - by rewrite (re_match_name n (".service.d" +:+ nl) [(1%nat, n)]).
  - intros Hmem.
    rewrite (re_match_name n (".service.d/dapp.conf" +:+ nl)
               [(2%nat, "/dapp.conf"); (1%nat, n)]); [|done..].
    cbn. by rewrite Hmem.
Qed.

Lemma classify_trailing_newline_witness :
  classify web_catalog (("/dapp@" +:+ "web" +:+ ".service.d") +:+ nl) = Directory ∧
  (dict_mem "web" web_catalog = true →
   classify web_catalog (("/dapp@" +:+ "web" +:+ ".service.d/dapp.conf") +:+ nl)
     = EntityFile "web").
Proof. apply (classify_trailing_newline web_catalog "web"); [done|reflexivity]. Defined.

(** ** Attributes, open and read together *)

Section Operations.

Variable dapps : dict Dapp.


(** [open], case by case. *)
Lemma open_cases path flags s :
  (∃ e, getobj dapps path = Raise e ∧ open dapps path flags s = (Raise e, s)) ∨
  (∃ obj, getobj dapps path = Ok obj ∧
     match getconfig dapps obj {| cache := cache s; filecache := filecache s;
                                  lastfd := lastfd s + 1; generated := generated s |} with
     | (Ok conf, s1) =>
         open dapps path flags s =
           (Ok (lastfd s + 1),
            {| cache := cache s1; filecache := <[lastfd s + 1 := conf]> (filecache s);
               lastfd := lastfd s + 1; generated := generated s1 |})
     | (Raise e, s1) =>
         open dapps path flags s = (Raise e, s1) ∧
         filecache s1 = filecache s ∧ lastfd s1 = lastfd s + 1
     end).
Proof.
  unfold open, mbind, M_bind, lift, bump_lastfd, filecache_set, get_lastfd.
  destruct (getobj dapps path) as [obj|e]; [right|left; eauto].
  exists obj. split; [done|].
  match goal with |- context [getconfig dapps obj ?s0] =>
    pose proof (getconfig_frame dapps obj s0) as [Hfc Hfd];
    destruct (getconfig dapps obj s0) as [[conf|e] s1]
  end; simpl in *; by rewrite ?Hfc, ?Hfd.
Qed.

End Operations.

Section Table.

Variable dapps : dict Dapp.

Lemma getattr_frame path s :
  filecache (snd (getattr dapps path s)) = filecache s ∧
  lastfd (snd (getattr dapps path s)) = lastfd s.
Proof.
  unfold getattr, mbind, M_bind, lift, mret, M_ret.
  destruct (getobj dapps path) as [obj|e]; [|done].
  destruct (negb (is_str obj)); [done|].
  pose proof (getconfig_frame dapps obj s) as H.
  by destruct (getconfig dapps obj s) as [[conf|e] s1].
Qed.

(** What a call does to the table of open files and to [self.lastfd]:
    nothing; or one more handle number used up; or a text stored under the
    next handle number; or, for [release] only, the entry of [self.lastfd]
    deleted. *)
Lemma after_table c s :
  (filecache (after dapps c s) = filecache s ∧ lastfd (after dapps c s) = lastfd s) ∨
  (filecache (after dapps c s) = filecache s ∧ lastfd (after dapps c s) = lastfd s + 1) ∨
  (∃ conf, filecache (after dapps c s) = <[lastfd s + 1 := conf]> (filecache s) ∧
           lastfd (after dapps c s) = lastfd s + 1) ∨
  (filecache (after dapps c s) = delete (lastfd s) (filecache s) ∧
   lastfd (after dapps c s) = lastfd s ∧ ∃ path fh, c = CallRelease path fh).
Proof.
  destruct c as [| path | | path flags | path fh | path l o fh | | obj]; simpl.
  - by left.
  - left. apply getattr_frame.
  - by left.
  - destruct (open_cases dapps path flags s) as [(e & _ & ->)|(obj & _ & H)]; [by left|].
    destruct (getconfig dapps obj _) as [[conf|e] s1].
    + rewrite H. simpl. right. right. left. eauto.
    + destruct H as (-> & ? & ?). right. left. done.
  - unfold release. destruct (filecache s !! lastfd s); [|by left].
    right. right. right. simpl. eauto.
  - unfold read. left. by destruct (filecache s !! fh).
  - by left.
  - left. apply getconfig_frame.
Qed.

Lemma handles_inv_after c s : handles_inv s → handles_inv (after dapps c s).
Proof.
  intros [Hfd Hkeys]. unfold handles_inv.
  destruct (after_table c s) as [[-> ->]|[[-> ->]|[(conf & -> & ->)|(-> & -> & _)]]].
  - done.
  - split; [lia|]. intros k Hk. specialize (Hkeys k Hk). lia.
  - split; [lia|]. intros k Hk.
    destruct (decide (k = lastfd s + 1)) as [->|Hne]; [lia|].
    rewrite lookup_insert_ne in Hk by done. specialize (Hkeys k Hk). lia.
  - split; [done|]. intros k Hk. apply Hkeys.
    destruct (decide (k = lastfd s)) as [->|Hne].
    + rewrite lookup_delete_eq in Hk. by destruct Hk.
    + by rewrite lookup_delete_ne in Hk.
Qed.

Lemma handles_inv_run calls : handles_inv (run dapps calls).
Proof.
  unfold run. assert (handles_inv init) as Hinit.
  { split; [done|]. intros k [? Hk]. simpl in Hk. by rewrite lookup_empty in Hk. }
  revert Hinit. generalize init.
  induction calls as [|c calls IH]; intros s Hs; simpl; [done|].
  by apply IH, handles_inv_after.
Qed.

End Table.

(** X9: in every state that a fresh instance reaches, [self.lastfd] is at
    least -1, every handle in use lies between 0 and [self.lastfd], and so
    the handle that the next [open] takes, [self.lastfd + 1], is free: an
    [open] never overwrites the content of a handle in use. *)
Theorem handles_fresh (dapps : dict Dapp) (calls : list call) :
  -1 ≤ lastfd (run dapps calls) ∧
  (∀ k, is_Some (filecache (run dapps calls) !! k) → 0 ≤ k ≤ lastfd (run dapps calls)) ∧
  filecache (run dapps calls) !! (lastfd (run dapps calls) + 1) = None.
Proof.
  destruct (handles_inv_run dapps calls) as [Hfd Hkeys]. split; [done|]. split; [done|].
  destruct (filecache (run dapps calls) !! (lastfd (run dapps calls) + 1)) eqn:E; [|done].
  assert (is_Some (filecache (run dapps calls) !! (lastfd (run dapps calls) + 1))) as H
    by (by rewrite E).
  apply Hkeys in H. lia.
Qed.

(** X10: a handle below [self.lastfd] is never freed: no sequence of calls
    removes its entry or changes its content, [release] of that very handle
    included. *)
Theorem stale_handle_never_freed (dapps : dict Dapp) (s : state) (h : Z)
    (doc : string) (calls : list call) :
  filecache s !! h = Some doc → h < lastfd s →
  filecache (run_from dapps s calls) !! h = Some doc ∧
  h < lastfd (run_from dapps s calls).
Proof.
  unfold run_from. revert s. induction calls as [|c calls IH]; intros s Hh Hlt; [done|].
  simpl.
  destruct (after_table dapps c s)
    as [[Hf Hl]|[[Hf Hl]|[(conf & Hf & Hl)|(Hf & Hl & _)]]];
    apply IH; rewrite ?Hf, ?Hl; try done; try lia.
  - by rewrite lookup_insert_ne by lia.
  - by rewrite lookup_delete_ne by lia.
Qed.

Lemma stale_handle_never_freed_witness :
  filecache (run_from web_catalog web_opened_twice
               [CallRelease web_conf 0; CallRelease web_conf 0; CallOpen web_conf 0;
                CallRelease web_conf 0]) !! 0 = Some (config_text web) ∧
  0 < lastfd (run_from web_catalog web_opened_twice
               [CallRelease web_conf 0; CallRelease web_conf 0; CallOpen web_conf 0;
                CallRelease web_conf 0]).
Proof.
  apply (stale_handle_never_freed web_catalog web_opened_twice 0 (config_text web));
    by vm_compute.
Defined.

(** X11: the content of a handle in use is fixed: in a state that a fresh
    instance reaches, no call other than [release] changes or removes the
    text stored under a handle. *)
Theorem handle_content_stable (dapps : dict Dapp) (calls : list call) (c : call)
    (h : Z) (doc : string) :
  filecache (run dapps calls) !! h = Some doc →
  (∀ path fh, c ≠ CallRelease path fh) →
  filecache (after dapps c (run dapps calls)) !! h = Some doc.
Proof.
  intros Hh Hc. destruct (handles_inv_run dapps calls) as [_ Hkeys].
  assert (h ≤ lastfd (run dapps calls)) as Hle by (apply Hkeys; by rewrite Hh).
  destruct (after_table dapps c (run dapps calls))
    as [[-> _]|[[-> _]|[(conf & -> & _)|(_ & _ & path & fh & ->)]]]; try done.
  - by rewrite lookup_insert_ne by lia.
  - by destruct (Hc path fh).
Qed.

Lemma handle_content_stable_witness :
  filecache (after web_catalog (CallOpen web_conf 0)
               (run web_catalog [CallOpen web_conf 0])) !! 0 = Some (config_text web).
Proof.
  apply (handle_content_stable web_catalog [CallOpen web_conf 0] (CallOpen web_conf 0) 0
           (config_text web)); [by vm_compute|done].
Defined.

(** X12: after an [open] that returned, one [release] returns, whatever
    handle it is given, and every further [release] raises KeyError, until
    the next [open]: also for handles that are still in use. *)
Theorem release_once (dapps : dict Dapp) (path p1 : string) (flags fh1 h : Z)
    (s s1 : state) :
  open dapps path flags s = (Ok h, s1) →
  ∃ s2, release p1 fh1 s1 = (Ok (), s2) ∧
        filecache s2 = delete h (filecache s1) ∧
        ∀ p2 fh2, release p2 fh2 s2 = (Raise KeyError, s2).
Proof.
  intros (-> & Hfd & c & Hfc)%open_inv.
  assert (filecache s1 !! lastfd s1 = Some c) as Hlast
    by (by rewrite Hfd, Hfc, lookup_insert_eq).
  eexists. split; [by apply (release_last _ _ _ c)|]. simpl.
  split; [by rewrite Hfd|]. intros p2 fh2. unfold release. simpl.
  by rewrite lookup_delete_eq.
Qed.

Lemma release_once_witness :
  ∃ s2, release web_conf 0 web_opened_twice = (Ok (), s2) ∧
        filecache s2 = delete 1 (filecache web_opened_twice) ∧
        ∀ p2 fh2, release p2 fh2 s2 = (Raise KeyError, s2).
Proof.
  exact (release_once web_catalog web_conf web_conf 0 0 1 web_opened web_opened_twice
           web_opened_twice_eq).
Defined.

(** X13: [open] on a directory is not refused as such: it uses up a handle
    number, runs into KeyError in the generator and stores nothing; in a
    state that a fresh instance reaches, [self.lastfd] then names no entry,
    so every [release] raises KeyError until the next [open] that returns. *)
Theorem open_directory_raises (dapps : dict Dapp) (calls : list call)
    (path : string) (flags : Z) :
  classify dapps path = Directory →
  ∃ s',
    open dapps path flags (run dapps calls) = (Raise KeyError, s') ∧
    lastfd s' = lastfd (run dapps calls) + 1 ∧
    filecache s' = filecache (run dapps calls) ∧
    cache s' = cache (run dapps calls) ∧
    ∀ p fh, release p fh s' = (Raise KeyError, s').
Proof.
  intros Hdir.
  destruct (open_cases dapps path flags (run dapps calls)) as [(e & He & _)|(obj & Hobj & H)].
  { rewrite getobj_valid in He by (by rewrite Hdir). done. }
  rewrite getobj_valid in Hobj by (by rewrite Hdir). rewrite Hdir in Hobj.
  injection Hobj as <-.
  rewrite getconfig_raise in H by done. destruct H as (-> & _ & _).
  eexists. split; [done|]. simpl. do 3 (split; [done|]).
  intros p fh. unfold release. simpl.
  destruct (handles_inv_run dapps calls) as [_ Hkeys].
  destruct (filecache (run dapps calls) !! (lastfd (run dapps calls) + 1)) eqn:E; [|done].
  assert (is_Some (filecache (run dapps calls) !! (lastfd (run dapps calls) + 1))) as Hk
    by (by rewrite E).
  apply Hkeys in Hk. lia.
Qed.

Lemma open_directory_raises_witness :
  ∃ s',
    open web_catalog "/" 0 (run web_catalog [CallOpen web_conf 0]) = (Raise KeyError, s') ∧
    lastfd s' = lastfd (run web_catalog [CallOpen web_conf 0]) + 1 ∧
    filecache s' = filecache (run web_catalog [CallOpen web_conf 0]) ∧
    cache s' = cache (run web_catalog [CallOpen web_conf 0]) ∧
    ∀ p fh, release p fh s' = (Raise KeyError, s').
Proof.
  apply (open_directory_raises web_catalog [CallOpen web_conf 0] "/" 0). reflexivity.
Defined.

(** ** What is served *)

Section Content.

Variable dapps : dict Dapp.

Lemma content_inv_getconfig obj s :
  content_inv dapps s →
  content_inv dapps (snd (getconfig dapps obj s)) ∧
  ∀ conf, fst (getconfig dapps obj s) = Ok conf →
    ∃ n d, dict_get n dapps = Some d ∧ conf = config_text d.
Proof.
  intros [Hcache Hfiles]. destruct (cache_get obj s) as [conf|] eqn:Hc.
  { destruct obj as [| |m]; [done|done|]. simpl in Hc.
    rewrite (getconfig_hit _ _ _ _ Hc). split; [done|].
    intros ? [= <-]. destruct (Hcache m conf Hc) as (d & ? & ?). eauto. }
  destruct obj as [| |m].
  - by rewrite getconfig_raise.
  - by rewrite getconfig_raise.
  - simpl in Hc. destruct (dict_get m dapps) as [d|] eqn:Hd.
    + rewrite (getconfig_miss _ _ _ _ Hc Hd). split; [|intros ? [= <-]; eauto].
      split; [|done]. simpl. intros n conf.
      destruct (decide (n = m)) as [->|Hne].
      * rewrite lookup_insert_eq. intros [= <-]. eauto.
      * rewrite lookup_insert_ne by done. apply Hcache.
    + by rewrite getconfig_raise.
Qed.

Lemma content_inv_after c s : content_inv dapps s → content_inv dapps (after dapps c s).
Proof.
  intros Hinv. destruct c as [| path | | path flags | path fh | path l o fh | | obj];
    simpl; try done.
  - unfold getattr, mbind, M_bind, lift, mret, M_ret.
    destruct (getobj dapps path) as [obj|e]; [|done].
    destruct (negb (is_str obj)); [done|].
    pose proof (content_inv_getconfig obj s Hinv) as [H _].
    by destruct (getconfig dapps obj s) as [[conf|e] s1].
  - destruct (open_cases dapps path flags s) as [(e & _ & ->)|(obj & _ & H)]; [done|].
    match type of H with context [getconfig dapps obj ?s0] =>
      assert (content_inv dapps s0) as Hinv0 by done;
      pose proof (content_inv_getconfig obj s0 Hinv0) as [[Hcache Hfiles] Hconf];
      destruct (getconfig dapps obj s0) as [[conf|e] s1]
    end.
    + rewrite H. split; [done|]. simpl. intros h doc.
      destruct (decide (h = lastfd s + 1)) as [->|Hne].
      * rewrite lookup_insert_eq. intros [= <-]. by apply Hconf.
      * rewrite lookup_insert_ne by done. apply Hinv.
    + by destruct H as (-> & _ & _).
  - unfold release. destruct (filecache s !! lastfd s); [|done].
    destruct Hinv as [Hcache Hfiles]. split; [done|]. simpl. intros h doc.
    destruct (decide (h = lastfd s)) as [->|Hne].
    + by rewrite lookup_delete_eq.
    + rewrite lookup_delete_ne by done. apply Hfiles.
  - unfold read. by destruct (filecache s !! fh).
  - by apply content_inv_getconfig.
Qed.

Lemma content_inv_run calls : content_inv dapps (run dapps calls).
Proof.
  unfold run. assert (content_inv dapps init) as Hinit.
  { split; simpl; intros ? ? H; by rewrite lookup_empty in H. }
  revert Hinit. generalize init.
  induction calls as [|c calls IH]; intros s Hs; simpl; [done|].
  by apply IH, content_inv_after.
Qed.

End Content.

(** X14: in every state that a fresh instance reaches, every text in the
    cache is the text generated from the catalog record of its name, and
    every text under a handle is the text generated from some record of the
    catalog. *)
Theorem served_text_is_generated (dapps : dict Dapp) (calls : list call) :
  (∀ n conf, cache (run dapps calls) !! n = Some conf →
     ∃ d, dict_get n dapps = Some d ∧ conf = config_text d) ∧
  (∀ h doc, filecache (run dapps calls) !! h = Some doc →
     ∃ n d, dict_get n dapps = Some d ∧ doc = config_text d).
Proof. apply content_inv_run. Qed.






(** [getattr] on a directory, the root or the directory of any
    well-formed name, reports a directory of mode 0o40755 and size 0 and
    touches neither the cache nor the table of open files. *)
Lemma getattr_directory (dapps : dict Dapp) (path : string) (s : state) :
  classify dapps path = Directory →
  ∃ st, getattr dapps path s = (Ok st, s) ∧ st_mode st = 16877 ∧ st_size st = 0.
Proof.
  intros Hdir. unfold getattr, mbind, M_bind, lift, mret, M_ret.
  rewrite getobj_valid, Hdir by (by rewrite Hdir). cbn [is_str negb]. eauto.
Qed.

(** ** Reading in pieces *)

Lemma substring_split n a b s :
  String.substring n a s +:+ String.substring (n + a) b s = String.substring n (a + b) s.
Proof.
  revert n a. induction s as [|c s IH]; intros n a.
  - destruct n, a, b; done.
  - destruct n as [|n]; [|apply IH].
    destruct a as [|a]; [done|].
    cbn [String.substring Nat.add]. rewrite append_cons. f_equal. apply (IH 0%nat).
Qed.

(** X17: two reads of a handle, one after the other at adjoining offsets,
    return together what one read of the joint length returns: the file can
    be read in pieces of any size. *)
Theorem read_in_pieces (path : string) (offset l1 l2 fh : Z) (s : state) (doc : string) :
  filecache s !! fh = Some doc →
  forall_chars is_ascii doc = true →
  0 ≤ offset → 0 ≤ l1 → 0 ≤ l2 →
  ∃ d1 d2,
    read path l1 offset fh s = (Ok d1, s) ∧
    read path l2 (offset + l1) fh s = (Ok d2, s) ∧
    read path (l1 + l2) offset fh s = (Ok (d1 +:+ d2), s).
Proof.
  intros Hfh Hascii Ho H1 H2. unfold read. rewrite Hfh.
  rewrite !read_slice by lia. unfold encode_ascii.
  rewrite !forall_chars_substring by done.
  eexists _, _. split; [done|]. split; [done|]. do 2 f_equal.
  rewrite !Z2Nat.inj_add by lia. by rewrite substring_split.
Qed.

Lemma read_in_pieces_witness :
  ∃ d1 d2,
    read web_conf 10 3 0 web_opened = (Ok d1, web_opened) ∧
    read web_conf 500 (3 + 10) 0 web_opened = (Ok d2, web_opened) ∧
    read web_conf (10 + 500) 3 0 web_opened = (Ok (d1 +:+ d2), web_opened).
Proof.
  apply (read_in_pieces web_conf 3 10 500 0 web_opened (config_text web));
    [by vm_compute | by vm_compute | lia | lia | lia].
Defined.

(** ** The image file name *)

Lemma get_replace old new s i :
  String.get i (replace old new s)
  = (λ c : ascii, if Ascii.eqb c old then new else c) <$> String.get i s.
Proof.
  revert i. induction s as [|c s IH]; intros i; [done|].
  destruct i as [|i]; simpl; [done|]. apply IH.
Qed.

Lemma elem_of_config_text_lines d :
  single_line d = true →
  image_line d ∈ split_lines (config_text d) ∧
  image_file_line d ∈ split_lines (config_text d).
Proof.
  intros Hd. rewrite (config_text_lines d Hd).
  split; rewrite !elem_of_app; right; right; right;
    repeat first [apply list_elem_of_here | apply list_elem_of_further].
Qed.

(** X18: for a descriptor of one-line fields the generated text has the line
    [Environment=DAPP_DOCKER_IMAGE=<image>] and a line
    [Environment=DAPP_DOCKER_IMAGE_FILE=/var/lib/docker/preinstall/<file>.tar]
    where [<file>] is the image name, character by character, with an
    underscore in place of every slash and every colon. *)
Theorem genconfig_image_file (dapps : dict Dapp) (n : string) (d : Dapp) (s : state) :
  dict_get n dapps = Some d →
  single_line d = true →
  ∃ conf file,
    fst (genconfig dapps (EntityFile n) s) = Ok conf ∧
    "Environment=DAPP_DOCKER_IMAGE=" +:+ image d ∈ split_lines conf ∧
    "Environment=DAPP_DOCKER_IMAGE_FILE=/var/lib/docker/preinstall/" +:+ file +:+ ".tar"
      ∈ split_lines conf ∧
    ∀ i, String.get i file
         = (λ c : ascii, if Ascii.eqb c "/" || Ascii.eqb c ":" then "_"%char else c)
             <$> String.get i (image d).
Proof.
  intros Hget Hd. exists (config_text d), (replace ":" "_" (replace "/" "_" (image d))).
  split; [by apply genconfig_text|].
  destruct (elem_of_config_text_lines d Hd) as [Himg Hfile].
  split; [exact Himg|]. split; [exact Hfile|].
  intros i. rewrite !get_replace. destruct (String.get i (image d)) as [c|]; [|done].
  simpl. f_equal. destruct (Ascii.eqb_spec c "/") as [->|]; [done|].
  by destruct (Ascii.eqb_spec c ":").
Qed.

Lemma genconfig_image_file_witness :
  ∃ conf file,
    fst (genconfig web_catalog (EntityFile "web") init) = Ok conf ∧
    "Environment=DAPP_DOCKER_IMAGE=" +:+ image web ∈ split_lines conf ∧
    "Environment=DAPP_DOCKER_IMAGE_FILE=/var/lib/docker/preinstall/" +:+ file +:+ ".tar"
      ∈ split_lines conf ∧
    ∀ i, String.get i file
         = (λ c : ascii, if Ascii.eqb c "/" || Ascii.eqb c ":" then "_"%char else c)
             <$> String.get i (image web).
Proof.
  apply (genconfig_image_file web_catalog "web" web init); reflexivity.
Defined.

(** ** Names with a digit *)

(** Two ways to cut one text: when the first part of one cut is a run of
    [p] and the first part of the other is not, the run is the shorter. *)
Lemma append_run_split p a b a' b' :
  a +:+ b = a' +:+ b' →
  forall_chars p a' = true → forall_chars p a = false →
  ∃ r, r ≠ "" ∧ a = a' +:+ r ∧ b' = r +:+ b.
Proof.
  revert a. induction a' as [|c a' IH]; intros a Heq Ha' Ha.
  - exists a. split; [by intros ->|]. by split.
  - destruct a as [|c0 a]; [done|].
    rewrite !append_cons in Heq. injection Heq as -> Heq.
    simpl in Ha', Ha. apply andb_prop in Ha' as [Hc Ha']. rewrite Hc in Ha.
    destruct (IH a Heq Ha' Ha) as (r & Hr & -> & ->). by exists r.
Qed.

Lemma get_append r y i :
  String.get i (r +:+ y)
  = match String.get i r with
    | Some c => Some c
    | None => String.get (i - String.length r) y
    end.
Proof.
  revert i. induction r as [|c r IH]; intros i.
  - by rewrite Nat.sub_0_r.
  - rewrite append_cons. destruct i as [|i]; [done|]. apply IH.
Qed.

Lemma forall_chars_get p s i c :
  forall_chars p s = true → String.get i s = Some c → p c = true.
Proof.
  revert i. induction s as [|c0 s IH]; intros i Hs Hi; [done|].
  simpl in Hs. apply andb_prop in Hs as [Hc0 Hs].
  destruct i as [|i]; simpl in Hi; [by injection Hi as <-|]. by apply (IH i).
Qed.

Lemma get_none_length s i : String.get i s = None → (String.length s ≤ i)%nat.
Proof.
  revert i. induction s as [|c s IH]; intros i H; simpl; [lia|].
  destruct i as [|i]; [done|]. simpl in H. apply IH in H. lia.
Qed.

(** After a non-empty run of characters of the names of the specification,
    the eleventh character of [.service.d] and of [.service.d/dapp.conf] is
    still before their slash: it is no slash and no newline. *)
Lemma eleventh_char r y z :
  r ≠ "" → forall_chars spec_name_char r = true →
  y = ".service.d" ∨ y = ".service.d/dapp.conf" →
  String.get 10 (r +:+ y) = Some z → z ≠ "/"%char ∧ z ≠ newline.
Proof.
  intros Hr Hspec Hy. rewrite get_append.
  destruct (String.get 10 r) as [c|] eqn:Hget.
  - intros [= <-]. pose proof (forall_chars_get _ _ _ _ Hspec Hget) as Hc.
    split; intros ->; done.
  - apply get_none_length in Hget.
    destruct r as [|c r]; [done|]. simpl in Hget. simpl String.length.
    do 10 (destruct r as [|? r];
           [destruct Hy as [-> | ->]; intros [= <-]; split; done|]).
    simpl in Hget. lia.
Qed.

(** The pattern matches no path of a name of the specification's set that
    holds a character outside the set of the pattern, a digit. *)
Lemma re_match_digit_name n y :
  forall_chars spec_name_char n = true → forall_chars name_char n = false →
  y = ".service.d" ∨ y = ".service.d/dapp.conf" →
  re_match dapp_pattern ("/dapp@" +:+ n +:+ y) = None.
Proof.
  intros Hspec Hdigit Hy.
  destruct (re_match dapp_pattern ("/dapp@" +:+ n +:+ y)) as [m|] eqn:E; [|done].
  exfalso.
  apply re_match_inv in E as (n' & c1 & c2 & tail & _ & Hn' & _ & _ & Htail & E).
  assert (∃ w, n +:+ y = n' +:+ String c1 ("service" +:+ String c2 ("d" +:+ w))
            ∧ match w with "" => True | String z _ => z = "/"%char ∨ z = newline end)
    as (w & Heq & Hw).
  { destruct E as [[E _]|(f & _ & E & _)];
      apply (inj (String.append "/dapp@")) in E.
    - exists tail. split; [done|]. destruct Htail as [-> | ->]; [done|by right].
    - exists (String "/" f +:+ tail). split; [done|]. by left. }
  destruct (append_run_split name_char _ _ _ _ Heq Hn' Hdigit) as (r & Hr & -> & Hcut).
  rewrite forall_chars_app in Hspec. apply andb_prop in Hspec as [_ Hspec].
  pose proof (f_equal (String.get 10) Hcut) as Hget.
  change (String.get 10 (String c1 ("service" +:+ String c2 ("d" +:+ w))))
    with (String.get 0 w) in Hget.
  destruct w as [|z w].
  - simpl in Hget. symmetry in Hget. apply get_none_length in Hget.
    rewrite length_append in Hget. destruct r; [done|].
    destruct Hy as [-> | ->]; simpl in Hget; lia.
  - simpl in Hget. symmetry in Hget.
    destruct (eleventh_char r y z Hr Hspec Hy Hget) as [H1 H2].
    by destruct Hw.
Qed.

(** C2: a record whose name is made of letters, digits, hyphens and
    underscores and holds a digit is a key of the catalog and is listed by
    the root, yet [classify] rejects both the path of its directory and the
    path of its [dapp.conf]: the set of the pattern has no digits. *)
Theorem classify_digit_name_C2 (jsonobj : list Dapp) (v : Dapp) :
  v ∈ jsonobj →
  forall_chars spec_name_char (name v) = true →
  forall_chars name_char (name v) = false →
  dict_mem (name v) (load_dapps jsonobj) = true ∧
  (∃ entries, readdir (load_dapps jsonobj) "/" = Ok entries ∧
              "dapp@" +:+ name v +:+ ".service.d" ∈ entries) ∧
  classify (load_dapps jsonobj) ("/dapp@" +:+ name v +:+ ".service.d") = Invalid ∧
  classify (load_dapps jsonobj) (("/dapp@" +:+ name v +:+ ".service.d") +:+ "/dapp.conf")
    = Invalid.
Proof.
  intros Hv Hspec Hdigit. split; [|split; [|split]].
  - unfold dict_mem. rewrite load_dapps_last_wins_find.
    destruct (List.find _ (rev jsonobj)) eqn:E; [done|].
    assert (In v (rev jsonobj)) as Hin by (by rewrite <- in_rev, <- list_elem_of_In).
    pose proof (List.find_none _ _ E v Hin) as Hnone. simpl in Hnone.
    by rewrite String.eqb_refl in Hnone.
  - eexists. split; [reflexivity|].
    do 2 apply list_elem_of_further.
    apply (list_elem_of_fmap_2 (λ n, "dapp@" +:+ n +:+ ".service.d")).
    apply load_dapps_key_names. by exists v.
  - unfold classify. rewrite not_root. by rewrite re_match_digit_name by eauto.
  - rewrite !append_assoc.
    change (".service.d" +:+ "/dapp.conf") with ".service.d/dapp.conf".
    unfold classify. rewrite not_root.
    by rewrite (re_match_digit_name (name v) ".service.d/dapp.conf") by eauto.
Qed.

Lemma classify_digit_name_C2_witness :
  dict_mem (name web2) (load_dapps [web; web2]) = true ∧
  (∃ entries, readdir (load_dapps [web; web2]) "/" = Ok entries ∧
              "dapp@" +:+ name web2 +:+ ".service.d" ∈ entries) ∧
  classify (load_dapps [web; web2]) ("/dapp@" +:+ name web2 +:+ ".service.d") = Invalid ∧
  classify (load_dapps [web; web2])
    (("/dapp@" +:+ name web2 +:+ ".service.d") +:+ "/dapp.conf") = Invalid.
Proof.
  apply (classify_digit_name_C2 [web; web2] web2);
    [apply list_elem_of_further, list_elem_of_here | reflexivity | reflexivity].
Defined.
